(** * lamia: identifier normalisation, webfinger discovery, relationship
      tables and the not-found helpers of the database middleware.

    A shallow embedding of
      - [lamia/utilities/webfinger.py]  ([normalize], [finger]),
      - [lamia/middleware/gino.py]      ([get_or_404], [first_or_404],
                                         [Gino.startup]),
      - [lamia/models/features.py]      (the [Follow], [Block], [Identity]
                                         and [Account] rows),
      - [lamia/views/graph/users/mutations.py]
                                        ([RegisterUser], [LoginUser]),
    followed by the properties stated about them.  The standard library is
    followed as CPython 3.11.2 has it.

    Python [str] values are modelled by [string]; every character stands
    for the code point of the same number, so the development covers
    identifiers over code points 0..255, where the regular expression
    class [\d] is exactly the ten digits 0..9. *)

From Stdlib Require Import String Ascii List Bool Arith Lia ZArith.
From stdpp Require Import gmap.
Import ListNotations.

Local Open Scope string_scope.
Local Open Scope bool_scope.

(** ** Exceptions and results *)

Module Py.

(** The exceptions the embedded code can raise. *)
Inductive exn : Type :=
| ValueError (msg : string)
| IndexError
| NameError (name : string)
| TypeError (msg : string)
| RelationshipConflict
| ClientError (msg : string)
| DatabaseError (msg : string)
| HTTPException (status_code : Z).

Inductive result (A : Type) : Type :=
| Ok (a : A)
| Raise (e : exn).
Arguments Ok {A} a.
Arguments Raise {A} e.

#[global] Instance result_ret : MRet result := fun A a => Ok a.

#[global] Instance result_bind : MBind result := fun A B k r =>
  match r with
  | Ok a => k a
  | Raise e => Raise e
  end.

Definition returns {A} (r : result A) : Prop := exists a, r = Ok a.
Definition raises {A} (r : result A) : Prop := exists e, r = Raise e.

End Py.
Import Py.

(** ** Python string operations used by the source *)

Module Str.

(** [s.startswith(p)] *)
Definition startswith (p s : string) : bool := String.prefix p s.

(** [s[n:]] *)
Fixpoint slice_from (n : nat) (s : string) : string :=
  match n, s with
  | O, _ => s
  | S _, EmptyString => EmptyString
  | S k, String _ t => slice_from k t
  end.

(** [s[:n]] *)
Fixpoint slice_to (n : nat) (s : string) : string :=
  match n, s with
  | O, _ => EmptyString
  | S _, EmptyString => EmptyString
  | S k, String c t => String c (slice_to k t)
  end.

(** [p in s] (substring test) *)
Fixpoint contains (p s : string) : bool :=
  match s with
  | EmptyString => String.prefix p EmptyString
  | String _ t => String.prefix p s || contains p t
  end.

(** [s.find(c)] for a one-character needle; [None] stands for [-1]. *)
Fixpoint find (c : ascii) (s : string) : option nat :=
  match s with
  | EmptyString => None
  | String a t =>
      if Ascii.eqb a c then Some O
      else match find c t with Some i => Some (S i) | None => None end
  end.

(** [s.find(p)] for any needle; [None] stands for [-1]. *)
Fixpoint find_sub (p s : string) : option nat :=
  match s with
  | EmptyString => if String.prefix p EmptyString then Some O else None
  | String _ t =>
      if String.prefix p s then Some O
      else match find_sub p t with Some i => Some (S i) | None => None end
  end.

(** [s.replace(old, new)] for a non-empty [old], as in all its uses
    here: the occurrences of [old] are replaced from left to right,
    without overlap.  [skip] counts the
    characters of a matched occurrence that are still to be passed over. *)
Fixpoint replace_from (old new : string) (skip : nat) (s : string) : string :=
  match s with
  | EmptyString => EmptyString
  | String c t =>
      match skip with
      | S k => replace_from old new k t
      | O =>
          if String.prefix old s
          then new ++ replace_from old new (String.length old - 1) t
          else String c (replace_from old new 0 t)
      end
  end.

Definition replace (old new s : string) : string := replace_from old new 0 s.

(** [k] slashes. *)
Fixpoint slashes (k : nat) : string :=
  match k with
  | O => EmptyString
  | S k' => String "/" (slashes k')
  end.

(** [s.split(sep)] for a one-character separator. *)
Fixpoint split (sep : ascii) (s : string) : list string :=
  match s with
  | EmptyString => [EmptyString]
  | String c t =>
      if Ascii.eqb c sep then EmptyString :: split sep t
      else match split sep t with
           | h :: r => String c h :: r
           | [] => [String c EmptyString]
           end
  end.

(** [l[i]], raising [IndexError] out of range. *)
Definition index {A} (l : list A) (i : nat) : result A :=
  match nth_error l i with
  | Some x => Ok x
  | None => Raise IndexError
  end.

Definition chars (s : string) : list ascii := list_ascii_of_string s.

(** [all(p(c) for c in s)] and [any(p(c) for c in s)] *)
Definition all (p : ascii -> bool) (s : string) : bool := forallb p (chars s).

Definition is_digit (c : ascii) : bool :=
  let n := nat_of_ascii c in (48 <=? n)%nat && (n <=? 57)%nat.

Definition is_alpha (c : ascii) : bool :=
  let n := nat_of_ascii c in
  ((65 <=? n)%nat && (n <=? 90)%nat) || ((97 <=? n)%nat && (n <=? 122)%nat).

(** The prefix of [s] before its first character satisfying [p]
    (all of [s] when there is none), and the rest. *)
Fixpoint take_until (p : ascii -> bool) (s : string) : string :=
  match s with
  | EmptyString => EmptyString
  | String c t => if p c then EmptyString else String c (take_until p t)
  end.

End Str.
Import Str.

(** ** [re] and [urllib.parse] as used by [webfinger.py] *)

Module Re.

Definition starts_digit (s : string) : bool :=
  match s with
  | String d _ => is_digit d
  | EmptyString => false
  end.

(** [port_re = re.compile(r'\:\d+')] and [port_re.sub('', s)]: every
    leftmost, non-overlapping, greedy match of a colon followed by one or
    more digits is deleted.  [in_port] holds while the digits of a match
    are being consumed. *)
Fixpoint port_re_sub_from (in_port : bool) (s : string) : string :=
  match s with
  | EmptyString => EmptyString
  | String c t =>
      if in_port && is_digit c then port_re_sub_from true t
      else if Ascii.eqb c ":" && starts_digit t then port_re_sub_from true t
      else String c (port_re_sub_from false t)
  end.

Definition port_re_sub (s : string) : string := port_re_sub_from false s.

(** [port_re.search(s) is not None] *)
Fixpoint port_re_search (s : string) : bool :=
  match s with
  | EmptyString => false
  | String c t => (Ascii.eqb c ":" && starts_digit t) || port_re_search t
  end.

End Re.
Import Re.

(** [ipaddress.ip_address] on a string, as far as [urllib.parse] needs
    it: whether the string is an IPv4 address, an IPv6 address, or
    neither. *)
Module Ipaddress.

(** The number written by decimal digits. *)
Definition decimal (s : string) : nat :=
  fold_left (fun n c => (10 * n + (nat_of_ascii c - 48))%nat) (chars s) 0%nat.

(** [IPv4Address._parse_octet] does not raise. *)
Definition octet_ok (o : string) : bool :=
  if String.eqb o "" then false
  else if negb (all is_digit o) then false
  else if (3 <? String.length o)%nat then false
  else if negb (String.eqb o "0") && startswith "0" o then false
  else (decimal o <=? 255)%nat.

(** [IPv4Address(s)] does not raise. *)
Definition ipv4_ok (s : string) : bool :=
  negb (contains "/" s)
  && negb (String.eqb s "")
  && (Nat.eqb (List.length (split "." s)) 4)
  && forallb octet_ok (split "." s).

Definition hex_digit (c : ascii) : bool :=
  is_digit c
  || let n := nat_of_ascii c in
     ((65 <=? n)%nat && (n <=? 70)%nat) || ((97 <=? n)%nat && (n <=? 102)%nat).

(** [IPv6Address._parse_hextet] does not raise. *)
Definition hextet_ok (h : string) : bool :=
  all hex_digit h && (String.length h <=? 4)%nat && negb (String.eqb h "").

Definition is_empty (s : string) : bool := String.eqb s "".

(** The index of the first empty string of a list, counted from [i]. *)
Fixpoint first_empty (i : nat) (l : list string) : option nat :=
  match l with
  | [] => None
  | s :: r => if is_empty s then Some i else first_empty (S i) r
  end.

(** [IPv6Address._ip_int_from_string] does not raise on the parts between
    colons, an IPv4 ending already replaced by its two hextets. *)
Definition parts_ok (parts : list string) : bool :=
  let n := List.length parts in
  let middle := firstn (n - 2) (skipn 1 parts) in
  if (9 <? n)%nat then false
  else if (1 <? List.length (List.filter is_empty middle))%nat then false
  else
    match first_empty 1 middle with
    | Some skip_index =>
        let parts_hi := if is_empty (List.hd "" parts) then (skip_index - 1)%nat
                        else skip_index in
        let parts_lo := if is_empty (List.last parts "")
                        then (n - skip_index - 1 - 1)%nat
                        else (n - skip_index - 1)%nat in
        (negb (is_empty (List.hd "" parts)) || Nat.eqb parts_hi 0)
        && (negb (is_empty (List.last parts "")) || Nat.eqb parts_lo 0)
        && (parts_hi + parts_lo <? 8)%nat
        && forallb hextet_ok (firstn parts_hi parts)
        && forallb hextet_ok (skipn (n - parts_lo) parts)
    | None =>
        Nat.eqb n 8
        && negb (is_empty (List.hd "" parts))
        && negb (is_empty (List.last parts ""))
        && forallb hextet_ok parts
    end.

(** [IPv6Address(s)] does not raise: no slash, a scope id after [%] that
    is not empty and has no [%], three parts or more between colons, an
    IPv4 address allowed as the last of them. *)
Definition ipv6_ok (s : string) : bool :=
  negb (contains "/" s)
  && let addr := take_until (Ascii.eqb "%") s in
     let scope_ok :=
       if contains "%" s
       then let scope := slice_from (S (String.length addr)) s in
            negb (String.eqb scope "") && negb (contains "%" scope)
       else true in
     let parts := split ":" addr in
     scope_ok
     && negb (String.eqb addr "")
     && (3 <=? List.length parts)%nat
     && if contains "." (List.last parts "")
        then ipv4_ok (List.last parts "")
             && parts_ok (List.removelast parts ++ ["0"; "0"])
        else parts_ok parts.

(** The outcome of [ip_address(s)]. *)
Inductive kind : Type := IPv4 | IPv6 | NotAnAddress.

Definition ip_address (s : string) : kind :=
  if ipv4_ok s then IPv4 else if ipv6_ok s then IPv6 else NotAnAddress.

End Ipaddress.

(** [urllib.parse.urlsplit], as far as its [netloc] goes, after CPython
    3.11.2 with the check of bracketed hosts.  [_checknetloc] looks at
    characters that NFKC rewrites into one of [/?#@:]; there is none among
    the code points up to 255, so it never raises here.  The message of
    the [ValueError] for a host that is no address is given without the
    host it quotes. *)
Module Url.

(** [scheme_chars] of [urllib.parse]: letters, digits and [+-.] *)
Definition scheme_char (c : ascii) : bool :=
  is_alpha c || is_digit c
  || Ascii.eqb c "+" || Ascii.eqb c "-" || Ascii.eqb c ".".

Definition netloc_delim (c : ascii) : bool :=
  Ascii.eqb c "/" || Ascii.eqb c "?" || Ascii.eqb c "#".

(** [_splitnetloc(url, 2)[0]]: from index 2 up to the first of [/?#]. *)
Definition splitnetloc (url : string) : string :=
  take_until netloc_delim (slice_from 2 url).

(** The test that makes [urlsplit] raise [ValueError("Invalid IPv6 URL")]. *)
Definition bad_brackets (netloc : string) : bool :=
  (contains "[" netloc && negb (contains "]" netloc))
  || (contains "]" netloc && negb (contains "[" netloc)).

Definition TAB : string := String (ascii_of_nat 9) "".
Definition CR : string := String (ascii_of_nat 13) "".
Definition LF : string := String (ascii_of_nat 10) "".

(** [url.lstrip(_WHATWG_C0_CONTROL_OR_SPACE)]: the leading characters up
    to the space are dropped. *)
Fixpoint lstrip_c0 (url : string) : string :=
  match url with
  | EmptyString => EmptyString
  | String c t => if (nat_of_ascii c <=? 32)%nat then lstrip_c0 t else url
  end.

(** The loop over [_UNSAFE_URL_BYTES_TO_REMOVE]: tab, carriage return and
    line feed are deleted wherever they stand. *)
Definition remove_unsafe (url : string) : string :=
  replace LF "" (replace CR "" (replace TAB "" url)).

(** No tab, carriage return or line feed. *)
Definition unsafe_free (s : string) : bool :=
  negb (contains TAB s) && negb (contains CR s) && negb (contains LF s).

(** The text left once [urlsplit] has removed a scheme:
    [i = url.find(':')]; with [i > 0] and a letter for [url[0]], a prefix
    [url[:i]] made of scheme characters is taken off together with the
    colon. *)
Definition after_scheme (url : string) : string :=
  match find ":" url with
  | Some (S _ as i) =>
      if match url with String c _ => is_alpha c | EmptyString => false end
         && all scheme_char (slice_to i url)
      then slice_from (S i) url
      else url
  | _ => url
  end.

(** [s.rpartition(sep)[2]]: what follows the last [sep], or all of [s]. *)
Fixpoint after_last (sep : ascii) (s : string) : string :=
  match s with
  | EmptyString => EmptyString
  | String c t =>
      if contains (String sep "") t then after_last sep t
      else if Ascii.eqb c sep then t else s
  end.

(** [s.partition(sep)[2]]: what follows the first [sep], or nothing. *)
Fixpoint after_first (sep : ascii) (s : string) : string :=
  match s with
  | EmptyString => EmptyString
  | String c t => if Ascii.eqb c sep then t else after_first sep t
  end.

(** The pattern [\Av[a-fA-F0-9]+\..+\Z] on a string that starts with
    [v]: hexadecimal digits, a dot, and one character or more, none a
    line feed. *)
Fixpoint ipvfuture_from (seen : bool) (s : string) : bool :=
  match s with
  | EmptyString => false
  | String c t =>
      if Ipaddress.hex_digit c then ipvfuture_from true t
      else seen && Ascii.eqb c "." && negb (String.eqb t "")
           && negb (contains LF t)
  end.

(** [_check_bracketed_host(hostname)] *)
Definition check_bracketed_host (hostname : string) : result unit :=
  if startswith "v" hostname then
    if ipvfuture_from false (slice_from 1 hostname) then Ok tt
    else Raise (ValueError "IPvFuture address is invalid")
  else
    match Ipaddress.ip_address hostname with
    | Ipaddress.IPv6 => Ok tt
    | Ipaddress.IPv4 => Raise (ValueError "An IPv4 address cannot be in brackets")
    | Ipaddress.NotAnAddress =>
        Raise (ValueError "does not appear to be an IPv4 or IPv6 address")
    end.

(** [_check_bracketed_netloc(netloc)] *)
Definition check_bracketed_netloc (netloc : string) : result unit :=
  let hostname_and_port := after_last "@" netloc in
  if contains "[" hostname_and_port then
    let before_bracket := take_until (Ascii.eqb "[") hostname_and_port in
    let bracketed := after_first "[" hostname_and_port in
    if negb (String.eqb before_bracket "") then Raise (ValueError "Invalid IPv6 URL")
    else
      let hostname := take_until (Ascii.eqb "]") bracketed in
      let port := after_first "]" bracketed in
      if negb (String.eqb port "") && negb (startswith ":" port)
      then Raise (ValueError "Invalid IPv6 URL")
      else check_bracketed_host hostname
  else
    check_bracketed_host (take_until (Ascii.eqb ":") hostname_and_port).

(** The net location once split off: the bracket tests of [urlsplit]. *)
Definition checked_netloc (netloc : string) : result string :=
  if bad_brackets netloc then Raise (ValueError "Invalid IPv6 URL")
  else if contains "[" netloc && contains "]" netloc then
    _ ← check_bracketed_netloc netloc; Ok netloc
  else Ok netloc.

(** [urlparse(url).netloc]: only this component of the parse is used. *)
Definition urlparse_netloc (url : string) : result string :=
  let url := remove_unsafe (lstrip_c0 url) in
  let url := after_scheme url in
  if startswith "//" url then checked_netloc (splitnetloc url)
  else Ok "".

End Url.
Import Url.

(** ** [lamia/utilities/webfinger.py] *)

Module Webfinger.

(** Lines 34-35: drop the [acct:] portion. *)
Definition drop_acct (identifier : string) : string :=
  if startswith "acct:" identifier then slice_from 5 identifier
  else identifier.

(** Lines 40-41: drop the port portion. *)
Definition drop_port (identifier : string) : string :=
  if contains ":" (replace "://" "" identifier)
  then port_re_sub identifier else identifier.

(** [normalize(identifier)]: the pair (resource, address to contact). *)
Definition normalize (identifier : string) : result (string * string) :=
  let _identifier := drop_acct identifier in
  let _identifier := drop_port _identifier in
  if startswith "http" _identifier then
    netloc ← urlparse_netloc _identifier;
    Ok (replace "http://" "" (replace "https://" "" _identifier),
        "https://" ++ netloc)
  else if contains "@" _identifier && negb (contains "/@" _identifier) then
    let split_id := split "@" _identifier in
    host ← index split_id 1;
    Ok (_identifier, "https://" ++ host)
  else
    netloc ← urlparse_netloc ("https://" ++ _identifier);
    Ok (_identifier, "https://" ++ netloc).

(** The names bound at module level in [webfinger.py] (its imports and
    definitions); no builtin is called [json]. *)
Definition module_globals : list string :=
  ["asyncio"; "re"; "ClientSession"; "__version__"; "urlparse";
   "port_re"; "normalize"; "finger"].

Definition load_global (name : string) : result unit :=
  if existsb (String.eqb name) module_globals then Ok tt
  else Raise (NameError name).

(** What [async_session.get(url, headers=..., params=...)] is called with,
    and the part of the response the code reads. *)
Record request : Type := Request {
  req_method : string;
  req_url : string;
  req_headers : list (string * string);
  req_params : list (string * string)
}.

Record response : Type := Response {
  resp_status : Z;
  resp_body : string
}.

(** A JSON string literal: the text between two quotation marks. *)
Definition quoted (s : string) : string :=
  String (ascii_of_nat 34) s ++ String (ascii_of_nat 34) "".

(** The descriptor a remote server answers for [acct:lamia@lamia.social]. *)
Definition lamia_descriptor : string :=
  "{" ++ quoted "subject" ++ ":" ++ quoted "acct:lamia@lamia.social" ++ ","
  ++ quoted "links" ++ ":[{" ++ quoted "rel" ++ ":" ++ quoted "self" ++ ","
  ++ quoted "href" ++ ":" ++ quoted "https://lamia.social/u/lamia" ++ "}]}".

(** [dict(pairs)[key]] on the literal dictionaries of [finger]. *)
Fixpoint dict_get (key : string) (d : list (string * string)) : option string :=
  match d with
  | [] => None
  | (k, v) :: r => if String.eqb k key then Some v else dict_get key r
  end.

Section Finger.

(** [lamia.version.__version__], defined outside the files at hand. *)
Variable __version__ : string.

(** The value [json.loads] would produce. *)
Variable descriptor : Type.

(** The remote side: the outcome of awaiting the GET. *)
Variable get : request -> result response.

Definition headers : list (string * string) :=
  [("Accept", "q=2, application/jrd+json; q=1, application/json");
   ("User-Agent", "Lamia/" ++ __version__)].

(** [finger(identifier)]: the requests sent, in order, and the outcome.
    On line 88 the name [json] is evaluated before its argument; the
    argument would be the coroutine [response.read()], not awaited. *)
Definition finger (identifier : string) : list request * result descriptor :=
  match normalize identifier with
  | Raise e => ([], Raise e)
  | Ok (uid, url) =>
      let params := [("resource", uid)] in
      let url := url ++ "/.well-known/webfinger" in
      let sent := Request "GET" url headers params in
      ([sent],
       _response ← get sent;
       _json ← load_global "json";
       Raise (TypeError "the JSON object must be str, bytes or bytearray"))
  end.

End Finger.

End Webfinger.
Import Webfinger.

(** ** [lamia/middleware/gino.py]: the not-found helpers *)

Module Gino.

Section OrNotFound.

(** The arguments handed on to [get] / [first], and the rows they load. *)
Variables (args row : Type).

(** The awaited [cls.get] or [self.first]: a row, Python's [None], or an
    exception of the database layer. *)
Definition fetch : Type := args -> result (option row).

Definition StarletteModelMixin_get_or_404 (get : fetch) (a : args) : result row :=
  rv ← get a;
  match rv with
  | None => Raise (HTTPException 404)
  | Some r => Ok r
  end.

Definition GinoExecutor_first_or_404 (first : fetch) (a : args) : result row :=
  rv ← first a;
  match rv with
  | None => Raise (HTTPException 404)
  | Some r => Ok r
  end.

Definition GinoConnection_first_or_404 (first : fetch) (a : args) : result row :=
  rv ← first a;
  match rv with
  | None => Raise (HTTPException 404)
  | Some r => Ok r
  end.

Definition GinoEngine_first_or_404 (first : fetch) (a : args) : result row :=
  rv ← first a;
  match rv with
  | None => Raise (HTTPException 404)
  | Some r => Ok r
  end.

(** What a helper owes when the lookup it awaited answered [rv]. *)
Definition sample_lookup : nat -> result (option string) :=
  fun id => Ok (if Nat.eqb id 1 then Some "lamia" else None).

Definition or_404_answer (out : result row) (rv : option row) : Prop :=
  (out = Raise (HTTPException 404) <-> rv = None)
  /\ (raises out <-> rv = None)
  /\ (forall r, rv = Some r -> out = Ok r).

End OrNotFound.

End Gino.

(** ** [lamia/models/features.py]: relationship rows and the ledger *)

Module Ledger.

Local Open Scope Z_scope.

(** A row of [follows], found by its pair (actor_id, target_actor_id);
    the flag and time columns of [Follow]. *)
Record Follow : Type := mkFollow {
  pending_review : bool;
  approved : bool;
  blocked : bool;
  created : Z;
  last_updated : Z
}.

(** A row of [blocks], found by its pair (account_id, target_actor_id). *)
Record Block : Type := mkBlock {
  block_created : Z
}.

(** The columns of [Identity] that tie an actor to its account. *)
Record Identity : Type := mkIdentity {
  actor_id : Z;
  account_id : Z
}.

(** The column of [Account] that the follow rules read. *)
Record Account : Type := mkAccount {
  approval_for_follows : bool
}.

Record ledger : Type := mkLedger {
  follows : gmap (Z * Z) Follow;
  blocks : gmap (Z * Z) Block;
  identities : list Identity;
  accounts : gmap Z Account
}.

(** The follow states by their flags. *)
Definition is_pending (e : Follow) : bool :=
  pending_review e && negb (approved e) && negb (blocked e).
Definition is_approved (e : Follow) : bool :=
  negb (pending_review e) && approved e.
Definition is_blocked (e : Follow) : bool := blocked e.
Definition is_none (e : Follow) : bool :=
  negb (pending_review e) && negb (approved e) && negb (blocked e).

Definition actors_of (l : ledger) (account : Z) : list Z :=
  map actor_id (List.filter (fun i => Z.eqb (account_id i) account) (identities l)).

Definition account_of (l : ledger) (actor : Z) : option Z :=
  account_id <$> head (List.filter (fun i => Z.eqb (actor_id i) actor) (identities l)).

(** Whether follows of [target] wait for review. *)
Definition needs_approval (l : ledger) (target : Z) : bool :=
  match account_of l target ≫= (fun a => accounts l !! a) with
  | Some acc => approval_for_follows acc
  | None => true
  end.

Definition set_follows (l : ledger) (f : gmap (Z * Z) Follow) : ledger :=
  mkLedger f (blocks l) (identities l) (accounts l).

Definition PENDING (created now : Z) : Follow := mkFollow true false false created now.
Definition APPROVED (created now : Z) : Follow := mkFollow false true false created now.
Definition BLOCKED (created now : Z) : Follow := mkFollow false false true created now.

(** Modelled from the spec: the operation [requestFollow] of the
    Relationship Ledger, which no file at hand defines.  With no edge for
    the pair, or an edge in [NONE], the edge becomes [PENDING], or
    [APPROVED] when the target's account has [approval_for_follows=false].
    A [PENDING] or [APPROVED] edge does not meet the precondition, and
    [BLOCKED] is terminal: both are a [RelationshipConflict] that leaves
    the edge as it is. *)
Definition requestFollow (now src tgt : Z) (l : ledger) : result ledger :=
  let fresh c := if needs_approval l tgt then PENDING c now else APPROVED c now in
  match follows l !! (src, tgt) with
  | None => Ok (set_follows l (<[(src, tgt) := fresh now]> (follows l)))
  | Some e =>
      if is_none e
      then Ok (set_follows l (<[(src, tgt) := fresh (created e)]> (follows l)))
      else Raise RelationshipConflict
  end.

(** Modelled from the spec: the operation [approveFollow], which no file at
    hand defines: a [PENDING] edge becomes [APPROVED]. *)
Definition approveFollow (now src tgt : Z) (l : ledger) : result ledger :=
  match follows l !! (src, tgt) with
  | Some e =>
      if is_pending e
      then Ok (set_follows l (<[(src, tgt) := APPROVED (created e) now]> (follows l)))
      else Raise RelationshipConflict
  | None => Raise RelationshipConflict
  end.

(** Modelled from the spec: the operation [rejectFollow], which no file at
    hand defines: a [PENDING] edge is removed. *)
Definition rejectFollow (src tgt : Z) (l : ledger) : result ledger :=
  match follows l !! (src, tgt) with
  | Some e =>
      if is_pending e
      then Ok (set_follows l (delete (src, tgt) (follows l)))
      else Raise RelationshipConflict
  | None => Raise RelationshipConflict
  end.

(** Modelled from the spec: the operation [unfollow], which no file at hand
    defines: an [APPROVED] edge is removed. *)
Definition unfollow (src tgt : Z) (l : ledger) : result ledger :=
  match follows l !! (src, tgt) with
  | Some e =>
      if is_approved e && negb (is_blocked e)
      then Ok (set_follows l (delete (src, tgt) (follows l)))
      else Raise RelationshipConflict
  | None => Raise RelationshipConflict
  end.

(** An edge forced into [BLOCKED]; one that reads [BLOCKED] is left as is. *)
Definition force_blocked (now : Z) (e : Follow) : Follow :=
  if blocked e && negb (approved e) && negb (pending_review e) then e
  else BLOCKED (created e) now.

(** The pairs that join [actor] and [target], in either direction. *)
Definition between (target actor : Z) (k : Z * Z) : Prop :=
  k = (actor, target) \/ k = (target, actor).

(** Both directions between one actor and the target. *)
Definition sever (now target : Z) (actor : Z) (f : gmap (Z * Z) Follow)
  : gmap (Z * Z) Follow :=
  alter (force_blocked now) (target, actor)
    (alter (force_blocked now) (actor, target) f).

(** Modelled from the spec: the operation [blockViaAccount], which no file
    at hand defines: for every actor owned by the account, any edge with
    the target is forced into [BLOCKED], and the [Block] row is created
    unless it is there already. *)
Definition blockViaAccount (now account target : Z) (l : ledger) : ledger :=
  let f := foldr (sever now target) (follows l) (actors_of l account) in
  let b := match blocks l !! (account, target) with
           | Some _ => blocks l
           | None => <[(account, target) := mkBlock now]> (blocks l)
           end in
  mkLedger f b (identities l) (accounts l).

(** The operations of the ledger, each stamped with the time it runs at. *)
Inductive operation : Type :=
| RequestFollow (now src tgt : Z)
| ApproveFollow (now src tgt : Z)
| RejectFollow (src tgt : Z)
| Unfollow (src tgt : Z)
| BlockViaAccount (now account target : Z).

Definition apply (o : operation) (l : ledger) : result ledger :=
  match o with
  | RequestFollow now src tgt => requestFollow now src tgt l
  | ApproveFollow now src tgt => approveFollow now src tgt l
  | RejectFollow src tgt => rejectFollow src tgt l
  | Unfollow src tgt => unfollow src tgt l
  | BlockViaAccount now account target => Ok (blockViaAccount now account target l)
  end.

(** An operation that raises leaves the ledger as it was. *)
Definition step (l : ledger) (o : operation) : ledger :=
  match apply o l with
  | Ok l' => l'
  | Raise _ => l
  end.

Definition run (os : list operation) (l : ledger) : ledger := foldl step l os.

Definition empty : ledger := mkLedger ∅ ∅ [] ∅.

(** Account 1 owns actor 10, which actor 20 follows and which follows
    actor 20, both approved at time 5. *)
Definition sample : ledger :=
  mkLedger (<[(20, 10) := APPROVED 5 5]> {[ (10, 20) := APPROVED 5 5 ]})
           ∅ [mkIdentity 10 1] {[ 1 := mkAccount false ]}.

Definition sample_run : list operation :=
  [Unfollow 20 10; RequestFollow 6 20 10; BlockViaAccount 7 1 20;
   RequestFollow 8 10 20].

(** No edge is both approved and blocked. *)
Definition edge_ok (e : Follow) : Prop := ¬ (approved e = true ∧ blocked e = true).
Definition consistent (l : ledger) : Prop :=
  ∀ k e, follows l !! k = Some e → edge_ok e.

End Ledger.

(** ** [lamia/views/graph/users/mutations.py] and the password methods of
       [Account] *)

Module Users.

Local Open Scope Z_scope.

(** What a mutation can end in besides its result: the [GraphQLError]s
    it raises itself, the [AttributeError] of [None.encode], or whatever
    [bcrypt] raises. *)
Inductive error : Type :=
| GraphQLError (message : string)
| AttributeError
| Raised (e : exn).

Inductive outcome (A : Type) : Type :=
| Done (a : A)
| Fail (e : error).
Arguments Done {A} a.
Arguments Fail {A} e.

(** The verdict of [email_validator.validate_email]. *)
Inductive email_verdict : Type :=
| EmailValid
| EmailSyntaxError
| EmailUndeliverableError.

(** What the mutations take from outside the files at hand:
    [lamia.config.BASE_URL], [email_validator] and [bcrypt]. *)
Record deps : Type := Deps {
  BASE_URL : string;
  validate_email : string -> email_verdict;
  hashpw : string -> string -> result string;
  checkpw : string -> string -> result bool
}.

(** The columns of [accounts], [identities] and the actor that the
    mutations read or write; a column that can be NULL is an option. *)
Record account : Type := Account {
  a_id : Z;
  a_primary_identity_id : option Z;
  a_email_address : option string;
  a_password : option string;
  a_created : option Z
}.

Record identity : Type := Identity {
  i_id : Z;
  i_actor_id : option Z;
  i_account_id : option Z;
  i_display_name : option string;
  i_user_name : option string;
  i_disabled : option bool;
  i_created : option Z;
  i_last_updated : option Z
}.

(** The fields that [RegisterUser] sets on the [ActorSchema], with the
    row id and the [identity_id] of its model. *)
Record actor : Type := Actor {
  act_row_id : Z;
  act_id : string;
  act_type : string;
  act_url : string;
  act_followers : string;
  act_following : string;
  act_inbox : string;
  act_outbox : string;
  act_name : string;
  act_preferredUsername : string;
  act_identity_id : option Z
}.

(** An [OauthToken] row: the account, and the identity put in its
    access token. *)
Record token : Type := Token {
  tok_account_id : Z;
  tok_identity_id : Z
}.

(** The tables, in insertion order, and the next id of each sequence. *)
Record db : Type := Db {
  accounts : list account;
  identities : list identity;
  actors : list actor;
  tokens : list token;
  next_account_id : Z;
  next_identity_id : Z;
  next_actor_id : Z
}.

(** [IdentityObjectType(...)] as returned by [RegisterUser]. *)
Record IdentityObjectType : Type := IdentityObject {
  display_name : string;
  user_name : string;
  uri : string;
  avatar : string;
  created : Z
}.

(** [c.isspace()] on code points up to 255. *)
Definition is_space (c : ascii) : bool :=
  let n := nat_of_ascii c in
  ((9 <=? n)%nat && (n <=? 13)%nat) || ((28 <=? n)%nat && (n <=? 32)%nat)
  || (n =? 133)%nat || (n =? 160)%nat.

(** [s.lstrip()], [s.rstrip()] and [s.strip()] *)
Fixpoint lstrip (s : string) : string :=
  match s with
  | EmptyString => EmptyString
  | String c t => if is_space c then lstrip t else s
  end.

Fixpoint rstrip (s : string) : string :=
  match s with
  | EmptyString => EmptyString
  | String c t =>
      match rstrip t with
      | EmptyString => if is_space c then EmptyString else String c EmptyString
      | t' => String c t'
      end
  end.

Definition strip (s : string) : string := rstrip (lstrip s).

(** The class [[a-zA-Z_]]. *)
Definition name_char (c : ascii) : bool := is_alpha c || Ascii.eqb c "_".

(** [ALLOWED_NAME_CHARACTERS_RE.match(s) is not None] for
    [^[a-zA-Z_]+$]: one or more characters of the class, up to the end of
    the string or to a line feed that ends it.  [seen] holds once a
    character of the class was read. *)
Fixpoint allowed_name_from (seen : bool) (s : string) : bool :=
  match s with
  | EmptyString => seen
  | String c t =>
      if name_char c then allowed_name_from true t
      else seen && Ascii.eqb c (ascii_of_nat 10) && String.eqb t ""
  end.

Definition ALLOWED_NAME_CHARACTERS_RE_match (s : string) : bool :=
  allowed_name_from false s.

Definition opt_eqb (o : option string) (s : string) : bool :=
  match o with
  | Some x => String.eqb x s
  | None => false
  end.

(** [Account.select('id').where(Account.email_address == e).gino.scalar()
    is not None] *)
Definition email_used (d : db) (e : string) : bool :=
  existsb (fun a => opt_eqb (a_email_address a) e) (accounts d).

(** The same for [(Identity.user_name == u) | (Identity.display_name == u)]. *)
Definition user_name_used (d : db) (u : string) : bool :=
  existsb (fun i => opt_eqb (i_user_name i) u || opt_eqb (i_display_name i) u)
          (identities d).

(** [actor_model.update(identity_id=...).apply()] and
    [identity_model.update(account_id=...).apply()]: the rows with the
    id of the model are updated. *)
Definition set_actor_identity (row_id identity_id : Z) (a : actor) : actor :=
  if Z.eqb (act_row_id a) row_id
  then Actor (act_row_id a) (act_id a) (act_type a) (act_url a)
         (act_followers a) (act_following a) (act_inbox a) (act_outbox a)
         (act_name a) (act_preferredUsername a) (Some identity_id)
  else a.

Definition set_identity_account (row_id account_id : Z) (i : identity) : identity :=
  if Z.eqb (i_id i) row_id
  then Identity (i_id i) (i_actor_id i) (Some account_id) (i_display_name i)
         (i_user_name i) (i_disabled i) (i_created i) (i_last_updated i)
  else i.

(** The actor that [RegisterUser] builds for a user name. *)
Definition new_actor (E : deps) (row_id : Z) (u : string) : actor :=
  let id := BASE_URL E ++ "/u/" ++ u in
  Actor row_id id "Person" id
    (BASE_URL E ++ "/u/" ++ u ++ "/followers")
    (BASE_URL E ++ "/u/" ++ u ++ "/following")
    (BASE_URL E ++ "/u/" ++ u ++ "/inbox")
    (BASE_URL E ++ "/u/" ++ u ++ "/outbox")
    u u None.

(** [RegisterUser.mutate(info, user_name, email_address, password)] at
    the time [now], [salt] being what [bcrypt.gensalt()] gives: the
    database afterwards and the outcome. *)
Definition RegisterUser_mutate (E : deps) (now : Z) (salt : string)
    (user_name email_address password : string) (d : db)
  : db * outcome IdentityObjectType :=
  match validate_email E email_address with
  | EmailSyntaxError =>
      (d, Fail (GraphQLError
                  "Email address as entered is not a valid email address."))
  | _ =>
  let password := strip password in
  if (Z.of_nat (String.length password) <? 5) then
    (d, Fail (GraphQLError
                "Password is too short! Should be at least five characters in length."))
  else if negb (ALLOWED_NAME_CHARACTERS_RE_match user_name) then
    (d, Fail (GraphQLError "Invalid user name. Characters allowed are a-z and _."))
  else if email_used d email_address then
    (d, Fail (GraphQLError
                "This email address is already in use for another account."))
  else if user_name_used d user_name then
    (d, Fail (GraphQLError
                "This user name is already in use. User names must be unique."))
  else
    let created_ := now in
    let actor_model := new_actor E (next_actor_id d) user_name in
    let identity_model :=
      Identity (next_identity_id d) (Some (act_row_id actor_model)) None
        (Some user_name) (Some user_name) (Some false)
        (Some created_) (Some created_) in
    let actors1 :=
      map (set_actor_identity (act_row_id actor_model) (i_id identity_model))
          (actors d ++ [actor_model]) in
    let d1 := Db (accounts d) (identities d ++ [identity_model]) actors1
                (tokens d) (next_account_id d) (next_identity_id d + 1)
                (next_actor_id d + 1) in
    match hashpw E password salt with
    | Raise e => (d1, Fail (Raised e))
    | Ok hashed =>
        let account_model :=
          Account (next_account_id d) (Some (i_id identity_model))
            (Some email_address) (Some hashed) (Some created_) in
        let identities2 :=
          map (set_identity_account (i_id identity_model) (a_id account_model))
              (identities d1) in
        (Db (accounts d ++ [account_model]) identities2 actors1 (tokens d)
            (next_account_id d + 1) (next_identity_id d + 1)
            (next_actor_id d + 1),
         Done (IdentityObject user_name user_name
                 (BASE_URL E ++ "/u/" ++ user_name) "" created_))
    end
  end.

(** The checks that [RegisterUser] makes before it writes. *)
Definition accepted (E : deps) (user_name email_address password : string)
    (d : db) : bool :=
  match validate_email E email_address with
  | EmailSyntaxError => false
  | _ => true
  end
  && negb (Z.of_nat (String.length (strip password)) <? 5)
  && ALLOWED_NAME_CHARACTERS_RE_match user_name
  && negb (email_used d email_address)
  && negb (user_name_used d user_name).

(** The rows of a registration that went through its checks. *)
Definition registered_actor (E : deps) (d : db) (u : string) : actor :=
  set_actor_identity (next_actor_id d) (next_identity_id d)
    (new_actor E (next_actor_id d) u).

Definition registered_identity (d : db) (now : Z) (u : string)
    (account : option Z) : identity :=
  Identity (next_identity_id d) (Some (next_actor_id d)) account
    (Some u) (Some u) (Some false) (Some now) (Some now).

Definition registered_account (d : db) (now : Z) (e hashed : string) : account :=
  Account (next_account_id d) (Some (next_identity_id d)) (Some e)
    (Some hashed) (Some now).

(** A user name as the pattern reads it: a word of letters and
    underscores, or such a word and one line feed. *)
Definition name_shape (s : string) : Prop :=
  exists w, w <> "" /\ all name_char w = true
            /\ (s = w \/ s = w ++ String (ascii_of_nat 10) "").

(** [Account.check_password(password)] *)
Definition check_password (E : deps) (a : account) (password : string)
  : outcome bool :=
  match a_password a with
  | None => Fail AttributeError
  | Some hashed =>
      match checkpw E password hashed with
      | Ok b => Done b
      | Raise e => Fail (Raised e)
      end
  end.

(** [Account.join(Identity, Account.id == Identity.account_id)]: the
    rows account by account, each with its identities in turn. *)
Definition joined (d : db) : list (account * identity) :=
  flat_map (fun a =>
              map (pair a)
                  (List.filter (fun i => match i_account_id i with
                                         | Some x => Z.eqb x (a_id a)
                                         | None => false
                                         end)
                               (identities d)))
           (accounts d).

(** The account that [LoginUser] loads, with its identity: the first row
    whose email address is the given name, else the first whose identity
    has it as user name. *)
Definition find_login (d : db) (name : string) : option (account * identity) :=
  match List.find (fun r => opt_eqb (a_email_address (fst r)) name) (joined d) with
  | Some r => Some r
  | None => List.find (fun r => opt_eqb (i_user_name (snd r)) name) (joined d)
  end.

Definition add_token (d : db) (t : token) : db :=
  Db (accounts d) (identities d) (actors d) (tokens d ++ [t])
     (next_account_id d) (next_identity_id d) (next_actor_id d).

(** [LoginUser.mutate(info, user_name, password)] *)
Definition LoginUser_mutate (E : deps) (user_name password : string) (d : db)
  : db * outcome token :=
  match find_login d user_name with
  | None => (d, Fail (GraphQLError "Invalid username or password."))
  | Some (account, identity) =>
      match check_password E account password with
      | Fail e => (d, Fail e)
      | Done true =>
          let t := Token (a_id account) (i_id identity) in
          (add_token d t, Done t)
      | Done false => (d, Fail (GraphQLError "Invalid username or password."))
      end
  end.

(** The ids in use lie below the sequences, and identities point at
    accounts that the sequence has given out. *)
Definition wf (d : db) : Prop :=
  Forall (fun a => a_id a < next_account_id d) (accounts d)
  /\ Forall (fun i => i_id i < next_identity_id d) (identities d)
  /\ Forall (fun a => act_row_id a < next_actor_id d) (actors d)
  /\ Forall (fun i => forall x, i_account_id i = Some x -> x < next_account_id d)
            (identities d).

(** No two accounts share an email address, no two identities a user
    name. *)
Definition somes {A} (l : list (option A)) : list A :=
  flat_map (fun o => match o with Some x => [x] | None => [] end) l.

Definition unique_names (d : db) : Prop :=
  NoDup (somes (map a_email_address (accounts d)))
  /\ NoDup (somes (map i_user_name (identities d))).

Definition empty : db := Db [] [] [] [] 1 1 1.

(** The two mutations as requests served one after the other. *)
Inductive request : Type :=
| Register (now : Z) (salt user_name email_address password : string)
| Login (user_name password : string).

Definition serve (E : deps) (d : db) (r : request) : db :=
  match r with
  | Register now salt u e p => fst (RegisterUser_mutate E now salt u e p d)
  | Login u p => fst (LoginUser_mutate E u p d)
  end.

Definition serve_all (E : deps) (rs : list request) (d : db) : db :=
  foldl (serve E) d rs.

(** What is asked of [bcrypt]: a password checks against its own hash. *)
Definition bcrypt_round_trip (E : deps) : Prop :=
  forall p salt h, hashpw E p salt = Ok h -> checkpw E p h = Ok true.

(** [bcrypt] stood in for by a hash that is the password after a mark,
    and a validator that asks for an [@]. *)
Definition sample_deps : deps :=
  Deps "https://lamia.social"
       (fun e => if contains "@" e then EmailValid else EmailSyntaxError)
       (fun p salt => Ok ("$2b$" ++ p))
       (fun p h => Ok (String.eqb h ("$2b$" ++ p))).

End Users.

(** ** [lamia/middleware/gino.py]: [Gino.startup] *)

Module GinoStartup.

Local Open Scope Z_scope.

(** The values a configuration entry or a default can be. *)
Inductive value : Type :=
| VNone
| VBool (b : bool)
| VInt (z : Z)
| VStr (s : string)
| VURL (drivername host port username password database : value).

(** Python's truth test on these values. *)
Definition truthy (v : value) : bool :=
  match v with
  | VNone => false
  | VBool b => b
  | VInt z => negb (Z.eqb z 0)
  | VStr s => negb (String.eqb s "")
  | VURL _ _ _ _ _ _ => true
  end.

(** [self.config(key)] and [self.config(key, default=...)]: the
    configuration object is handed to [init_app] from outside. *)
Definition config : Type := string -> option value -> result value.

(** What [self.set_bind] is called with ([loop] left aside). *)
Record bind_call : Type := BindCall {
  bind : value;
  echo : value;
  min_size : value;
  max_size : value;
  ssl : value
}.

(** [int(s)] on a string: white space around, a sign, and decimal
    digits with single underscores between them.  [after_digit] holds
    when the character before was a digit. *)
Fixpoint digits_value (acc : Z) (after_digit : bool) (s : string) : option Z :=
  match s with
  | EmptyString => if after_digit then Some acc else None
  | String c t =>
      if is_digit c
      then digits_value (10 * acc + Z.of_nat (nat_of_ascii c - 48)) true t
      else if Ascii.eqb c "_" && after_digit && starts_digit t
      then digits_value acc false t
      else None
  end.

(** The white space that [int] passes over: the ASCII one and, above
    127, what [str.isspace] holds for. *)
Definition int_space (c : ascii) : bool :=
  let n := nat_of_ascii c in
  ((9 <=? n)%nat && (n <=? 13)%nat) || (n =? 32)%nat
  || (n =? 133)%nat || (n =? 160)%nat.

Fixpoint int_lstrip (s : string) : string :=
  match s with
  | EmptyString => EmptyString
  | String c t => if int_space c then int_lstrip t else s
  end.

Fixpoint int_rstrip (s : string) : string :=
  match s with
  | EmptyString => EmptyString
  | String c t =>
      match int_rstrip t with
      | EmptyString => if int_space c then EmptyString else String c EmptyString
      | t' => String c t'
      end
  end.

Definition int_of_str (s : string) : option Z :=
  match int_rstrip (int_lstrip s) with
  | String "+" t => digits_value 0 false t
  | String "-" t => option_map Z.opp (digits_value 0 false t)
  | t => digits_value 0 false t
  end.

(** [int(port)] as [URL.__init__] of sqlalchemy 1.3 calls it when [port]
    is not [None]. *)
Definition url_port (port : value) : result value :=
  match port with
  | VNone => Ok VNone
  | VInt z => Ok (VInt z)
  | VBool b => Ok (VInt (if b then 1 else 0))
  | VStr s =>
      match int_of_str s with
      | Some z => Ok (VInt z)
      | None => Raise (ValueError "invalid literal for int() with base 10")
      end
  | VURL _ _ _ _ _ _ =>
      Raise (TypeError "int() argument must be a string, a bytes-like object or a real number")
  end.

(** [Gino.startup]: the call of [set_bind] it makes, the lookups being
    made in the order of the source, and [URL(...)] built once they are
    made. *)
Definition startup (config : config) : result bind_call :=
  d ← config "dsn" None;
  dsn ← (if truthy d then config "dsn" None
         else
           drivername ← config "driver" (Some (VStr "asyncpg"));
           host ← config "host" (Some (VStr "localhost"));
           port ← config "port" (Some (VInt 5432));
           username ← config "user" (Some (VStr "postgres"));
           password ← config "password" (Some (VStr ""));
           database ← config "database" (Some (VStr "postgres"));
           port ← url_port port;
           Ok (VURL drivername host port username password database));
  echo ← config "echo" (Some (VBool false));
  min_size ← config "pool_min_size" (Some (VInt 5));
  max_size ← config "pool_max_size" (Some (VInt 10));
  ssl ← config "ssl" (Some VNone);
  Ok (BindCall dsn echo min_size max_size ssl).

(** The entries that [startup] reads besides the connection parts. *)
Definition agree (c1 c2 : config) : Prop :=
  c1 "dsn" None = c2 "dsn" None
  /\ c1 "echo" (Some (VBool false)) = c2 "echo" (Some (VBool false))
  /\ c1 "pool_min_size" (Some (VInt 5)) = c2 "pool_min_size" (Some (VInt 5))
  /\ c1 "pool_max_size" (Some (VInt 10)) = c2 "pool_max_size" (Some (VInt 10))
  /\ c1 "ssl" (Some VNone) = c2 "ssl" (Some VNone).

(** A configuration read from a list of entries; a key that is neither
    there nor given a default is an error. *)
Definition from_entries (entries : list (string * value)) : config :=
  fun key default =>
    match List.find (fun kv => String.eqb (fst kv) key) entries, default with
    | Some kv, _ => Ok (snd kv)
    | None, Some v => Ok v
    | None, None => Raise (ValueError "missing")
    end.

End GinoStartup.

(** * Properties *)

(** ** The identifiers of the comments in [normalize] *)

Example normalize_acct :
  normalize "acct:lamia@lamia.social"
  = Ok ("lamia@lamia.social", "https://lamia.social").
Proof. reflexivity. Qed.

Example normalize_acct_path :
  normalize "acct:lamia.social/@lamia"
  = Ok ("lamia.social/@lamia", "https://lamia.social").
Proof. reflexivity. Qed.

Example normalize_address :
  normalize "http://lamia.social/users/lamia"
  = Ok ("lamia.social/users/lamia", "https://lamia.social").
Proof. reflexivity. Qed.

Example normalize_email_address :
  normalize "lamia@lamia.social" = Ok ("lamia@lamia.social", "https://lamia.social").
Proof. reflexivity. Qed.

Example normalize_with_port :
  normalize "lamia.social:8080/users/lamia"
  = Ok ("lamia.social/users/lamia", "https://lamia.social").
Proof. reflexivity. Qed.

Example normalize_brackets :
  normalize "http://[lamia.social" = Raise (ValueError "Invalid IPv6 URL").
Proof. reflexivity. Qed.

Example port_re_sub_greedy : port_re_sub "::123:4x:y:5" = ":x:y".
Proof. reflexivity. Qed.

Example replace_all : replace "://" "" "a:://b://c" = "a:bc".
Proof. reflexivity. Qed.

Example split_every : split "@" "a@b@c" = ["a"; "b"; "c"].
Proof. reflexivity. Qed.

(** ** Strings *)

Section StringFacts.

Lemma append_cons (a : ascii) (s t : string) : String a s ++ t = String a (s ++ t).
Proof. reflexivity. Qed.

Lemma append_nil (t : string) : "" ++ t = t.
Proof. reflexivity. Qed.

Lemma prefix_app (p s : string) : String.prefix p (p ++ s) = true.
Proof.
  induction p as [|c p IH]; simpl.
  - now destruct s.
  - destruct (ascii_dec c c); [exact IH | congruence].
Qed.

Lemma prefix_cons (a c : ascii) (p t : string) :
  String.prefix (String a p) (String c t) = Ascii.eqb a c && String.prefix p t.
Proof.
  simpl. destruct (ascii_dec a c) as [->|Hne].
  - now rewrite Ascii.eqb_refl.
  - apply Ascii.eqb_neq in Hne. now rewrite Hne.
Qed.

Lemma prefix_nil (s : string) : String.prefix "" s = true.
Proof. now destruct s. Qed.

Lemma slice_from_app (p s : string) : slice_from (String.length p) (p ++ s) = s.
Proof. induction p; simpl; auto. Qed.

Lemma contains_char_cons (c a : ascii) (t : string) :
  contains (String c "") (String a t)
  = Ascii.eqb c a || contains (String c "") t.
Proof.
  cbn [contains]. rewrite prefix_cons, prefix_nil. now rewrite andb_true_r.
Qed.

Lemma contains_char_app (c : ascii) (s t : string) :
  contains (String c "") (s ++ t)
  = contains (String c "") s || contains (String c "") t.
Proof.
  induction s as [|a s IH].
  - reflexivity.
  - change (String a s ++ t) with (String a (s ++ t)).
    rewrite !contains_char_cons, IH. now rewrite orb_assoc.
Qed.

(** A string with the character [c] splits at its first [c]. *)
Lemma contains_char_split (c : ascii) (s : string) :
  contains (String c "") s = true ->
  exists u rest, s = u ++ String c rest /\ contains (String c "") u = false.
Proof.
  induction s as [|a s IH].
  - discriminate.
  - rewrite contains_char_cons. destruct (Ascii.eqb c a) eqn:E.
    + apply Ascii.eqb_eq in E as <-. intros _. now exists "", s.
    + simpl. intros H. destruct (IH H) as (u & rest & -> & Hu).
      exists (String a u), rest. split; [reflexivity|].
      now rewrite contains_char_cons, E.
Qed.

Lemma split_no_sep (c : ascii) (u : string) :
  contains (String c "") u = false -> split c u = [u].
Proof.
  induction u as [|a u IH]; [reflexivity|].
  rewrite contains_char_cons. intros H. apply orb_false_elim in H as [Ha Hu].
  cbn [split]. rewrite Ascii.eqb_sym, Ha, (IH Hu). reflexivity.
Qed.

Lemma split_app (c : ascii) (u rest : string) :
  contains (String c "") u = false ->
  split c (u ++ String c rest) = u :: split c rest.
Proof.
  induction u as [|a u IH].
  - intros _. simpl. now rewrite Ascii.eqb_refl.
  - rewrite contains_char_cons. intros H. apply orb_false_elim in H as [Ha Hu].
    change (String a u ++ String c rest) with (String a (u ++ String c rest)).
    cbn [split]. rewrite Ascii.eqb_sym, Ha, (IH Hu). reflexivity.
Qed.

(** The first field of a split is what stands before the separator. *)
Lemma split_head (c : ascii) (s : string) :
  exists r, split c s = take_until (Ascii.eqb c) s :: r.
Proof.
  induction s as [|a s [r IH]]; [now exists []|].
  cbn [split take_until]. rewrite (Ascii.eqb_sym c a).
  destruct (Ascii.eqb a c); eauto.
  rewrite IH. eauto.
Qed.

Lemma take_until_none (c : ascii) (s : string) :
  contains (String c "") s = false -> take_until (Ascii.eqb c) s = s.
Proof.
  induction s as [|a s IH]; [reflexivity|].
  rewrite contains_char_cons. intros H. apply orb_false_elim in H as [Ha Hs].
  cbn [take_until]. now rewrite Ha, (IH Hs).
Qed.

End StringFacts.

(** ** The port pattern *)

Section PortFacts.

Lemma port_re_search_cons (c : ascii) (t : string) :
  port_re_search (String c t)
  = (Ascii.eqb c ":" && starts_digit t) || port_re_search t.
Proof. reflexivity. Qed.

Lemma port_re_sub_from_cons (b : bool) (c : ascii) (t : string) :
  port_re_sub_from b (String c t)
  = if b && is_digit c then port_re_sub_from true t
    else if Ascii.eqb c ":" && starts_digit t then port_re_sub_from true t
    else String c (port_re_sub_from false t).
Proof. reflexivity. Qed.

Lemma port_sub_true_head (s : string) :
  starts_digit (port_re_sub_from true s) = false.
Proof.
  induction s as [|c t IH]; [reflexivity|].
  rewrite port_re_sub_from_cons. cbn [andb].
  destruct (is_digit c) eqn:Hc; [exact IH|].
  destruct (Ascii.eqb c ":" && starts_digit t); [exact IH|].
  exact Hc.
Qed.

Lemma port_sub_false_head (s : string) :
  starts_digit s = false -> starts_digit (port_re_sub_from false s) = false.
Proof.
  destruct s as [|c t]; [reflexivity|]. intros Hc.
  rewrite port_re_sub_from_cons. cbn [andb].
  destruct (Ascii.eqb c ":" && starts_digit t).
  - apply port_sub_true_head.
  - exact Hc.
Qed.

(** Nothing that [port_re] matches is left after the substitution. *)
Lemma port_sub_from_clean (b : bool) (s : string) :
  port_re_search (port_re_sub_from b s) = false.
Proof.
  revert b. induction s as [|c t IH]; intros b; [reflexivity|].
  rewrite port_re_sub_from_cons.
  destruct (b && is_digit c); [apply IH|].
  destruct (Ascii.eqb c ":" && starts_digit t) eqn:E; [apply IH|].
  rewrite port_re_search_cons, IH, orb_false_r.
  destruct (Ascii.eqb c ":"); [|reflexivity].
  cbn [andb] in *. now apply port_sub_false_head.
Qed.

Lemma port_re_sub_clean (s : string) : port_re_search (port_re_sub s) = false.
Proof. apply port_sub_from_clean. Qed.

(** Without a match the substitution changes nothing. *)
Lemma port_re_sub_id (s : string) :
  port_re_search s = false -> port_re_sub s = s.
Proof.
  unfold port_re_sub. induction s as [|c t IH]; [reflexivity|].
  rewrite port_re_search_cons, port_re_sub_from_cons.
  intros H. apply orb_false_elim in H as [H1 H2].
  cbn [andb]. rewrite H1, (IH H2). reflexivity.
Qed.

Lemma port_search_slice_from (n : nat) (s : string) :
  port_re_search s = false -> port_re_search (slice_from n s) = false.
Proof.
  revert s. induction n as [|n IH]; intros [|c t]; try easy.
  rewrite port_re_search_cons. intros H.
  apply orb_false_elim in H as [_ H]. now apply IH.
Qed.

Lemma port_search_app_r (u v : string) :
  port_re_search (u ++ v) = false -> port_re_search v = false.
Proof.
  induction u as [|c u IH]; [easy|].
  change (String c u ++ v) with (String c (u ++ v)).
  rewrite port_re_search_cons. intros H.
  apply orb_false_elim in H as [_ H]. now apply IH.
Qed.

Lemma starts_digit_take_until (p : ascii -> bool) (s : string) :
  starts_digit s = false -> starts_digit (take_until p s) = false.
Proof.
  destruct s as [|c t]; [easy|]. cbn [take_until]. now destruct (p c).
Qed.

Lemma port_search_take_until (p : ascii -> bool) (s : string) :
  port_re_search s = false -> port_re_search (take_until p s) = false.
Proof.
  induction s as [|c t IH]; [easy|].
  rewrite port_re_search_cons. intros H.
  apply orb_false_elim in H as [H1 H2].
  cbn [take_until]. destruct (p c); [reflexivity|].
  rewrite port_re_search_cons, (IH H2), orb_false_r.
  destruct (Ascii.eqb c ":"); [|reflexivity].
  cbn [andb] in *. now apply starts_digit_take_until.
Qed.

Lemma port_search_https (s : string) :
  port_re_search ("https://" ++ s) = port_re_search s.
Proof. destruct s; reflexivity. Qed.


End PortFacts.

(** The guard of line 40 never keeps a port from being removed: the
    colons that [replace('://', '')] deletes are followed by a slash. *)
Section PortGuard.

Lemma search_survives_replace (s : string) : forall k,
  String.prefix (slashes k) s = true ->
  port_re_search s = true ->
  contains ":" (replace_from "://" "" k s) = true.
Proof.
  induction s as [|c t IH]; intros k Hk Hs; [discriminate|].
  rewrite port_re_search_cons in Hs.
  destruct k as [|k].
  - cbn [replace_from]. destruct (String.prefix "://" (String c t)) eqn:Hp.
    + rewrite prefix_cons in Hp. apply andb_prop in Hp as [Hc Ht].
      apply Ascii.eqb_eq in Hc as <-.
      change ("" ++ ?x) with x. apply (IH 2%nat Ht).
      destruct t as [|d t']; [discriminate|].
      rewrite prefix_cons in Ht. apply andb_prop in Ht as [Hd _].
      apply Ascii.eqb_eq in Hd as <-. exact Hs.
    + rewrite contains_char_cons. destruct (Ascii.eqb ":" c) eqn:Hc; [reflexivity|].
      rewrite Ascii.eqb_sym, Hc in Hs. apply (IH 0%nat); [apply prefix_nil | exact Hs].
  - cbn [slashes] in Hk. rewrite prefix_cons in Hk.
    apply andb_prop in Hk as [Hc Hk]. apply Ascii.eqb_eq in Hc as <-.
    cbn [replace_from]. apply (IH k Hk). exact Hs.
Qed.

Lemma drop_port_always_clean (s : string) : port_re_search (drop_port s) = false.
Proof.
  unfold drop_port.
  destruct (contains ":" (replace "://" "" s)) eqn:G.
  - apply port_re_sub_clean.
  - destruct (port_re_search s) eqn:Hs; [|reflexivity].
    pose proof (search_survives_replace s 0 (prefix_nil s) Hs) as H.
    unfold replace in G. congruence.
Qed.

End PortGuard.

(** ** The net location *)

Section UrlFacts.

Lemma remove_unsafe_https (r : string) :
  remove_unsafe ("https://" ++ r) = "https://" ++ remove_unsafe r.
Proof. reflexivity. Qed.

Lemma remove_unsafe_http (r : string) :
  remove_unsafe ("http://" ++ r) = "http://" ++ remove_unsafe r.
Proof. reflexivity. Qed.

(** A URL written with the [https] scheme: the net location is what
    follows the two slashes, tabs and line breaks deleted, up to the first
    of [/?#]. *)
Lemma urlparse_netloc_https (r : string) :
  urlparse_netloc ("https://" ++ r)
  = checked_netloc (take_until netloc_delim (remove_unsafe r)).
Proof.
  unfold urlparse_netloc.
  change (lstrip_c0 ("https://" ++ r)) with ("https://" ++ r).
  rewrite remove_unsafe_https. generalize (remove_unsafe r).
  intros y. destruct y; reflexivity.
Qed.

Lemma urlparse_netloc_http (r : string) :
  urlparse_netloc ("http://" ++ r)
  = checked_netloc (take_until netloc_delim (remove_unsafe r)).
Proof.
  unfold urlparse_netloc.
  change (lstrip_c0 ("http://" ++ r)) with ("http://" ++ r).
  rewrite remove_unsafe_http. generalize (remove_unsafe r).
  intros y. destruct y; reflexivity.
Qed.


Lemma checked_netloc_same (nl nl' : string) :
  checked_netloc nl = Ok nl' -> nl' = nl.
Proof.
  unfold checked_netloc. destruct (bad_brackets nl); [discriminate|].
  destruct (contains "[" nl && contains "]" nl); [|now intros [= <-]].
  destruct (check_bracketed_netloc nl); [|discriminate]. now intros [= <-].
Qed.

(** [urlsplit] raises for a net location only when it has a bracket. *)
Lemma checked_netloc_raise (nl : string) (e : exn) :
  checked_netloc nl = Raise e ->
  contains "[" nl = true \/ contains "]" nl = true.
Proof.
  unfold checked_netloc, bad_brackets.
  destruct (contains "[" nl), (contains "]" nl); cbn; auto. discriminate.
Qed.

Lemma after_scheme_suffix (url : string) :
  exists n, after_scheme url = slice_from n url.
Proof.
  unfold after_scheme.
  destruct (find ":" url) as [[|i]|]; try (now exists 0%nat).
  destruct (_ && _); [now exists (S (S i)) | now exists 0%nat].
Qed.

Lemma lstrip_c0_suffix (url : string) :
  exists n, lstrip_c0 url = slice_from n url.
Proof.
  induction url as [|c t [n IH]]; [now exists 0%nat|].
  cbn [lstrip_c0]. destruct (_ <=? _)%nat; [|now exists 0%nat].
  exists (S n). exact IH.
Qed.

Lemma slice_from_twice (a b : nat) (s : string) :
  slice_from a (slice_from b s) = slice_from (b + a) s.
Proof.
  revert s. induction b as [|b IH]; intros s; [reflexivity|].
  destruct s; [now destruct a | apply IH].
Qed.

(** The net location is a piece of the URL that [urlsplit] has cleaned,
    or empty. *)
Lemma netloc_piece (url : string) :
  let cleaned := remove_unsafe (lstrip_c0 url) in
  (urlparse_netloc url = Ok ""
   \/ exists n,
        urlparse_netloc url
        = checked_netloc (take_until netloc_delim (slice_from n cleaned))).
Proof.
  unfold urlparse_netloc, splitnetloc.
  destruct (after_scheme_suffix (remove_unsafe (lstrip_c0 url))) as [n ->].
  cbv zeta. destruct (startswith "//" _); [|now left].
  right. exists (n + 2)%nat. now rewrite slice_from_twice.
Qed.


End UrlFacts.

(** ** [normalize] *)

Section NormalizeFacts.

Lemma drop_acct_acct (x : string) : drop_acct ("acct:" ++ x) = x.
Proof.
  unfold drop_acct, startswith. rewrite prefix_app.
  exact (slice_from_app "acct:" x).
Qed.

Lemma drop_port_id (x : string) : port_re_search x = false -> drop_port x = x.
Proof.
  intros H. unfold drop_port. destruct (contains ":" _); [|reflexivity].
  now apply port_re_sub_id.
Qed.

Lemma startswith_http_email (user host : string) :
  startswith "http" (user ++ "@" ++ host) = startswith "http" user.
Proof.
  unfold startswith.
  destruct user as [|a [|b [|c [|d u]]]];
    rewrite ?append_cons, ?append_nil, ?prefix_cons, ?prefix_nil;
    cbn [String.prefix Ascii.eqb Bool.eqb andb];
    rewrite ?andb_false_r, ?andb_true_r; reflexivity.
Qed.

(** Lines 54-59: the address-style branch.  [split('@')] cuts at every
    [@], and the second field is the one used. *)
Lemma normalize_email (s u rest : string) :
  drop_port (drop_acct s) = u ++ String "@" rest ->
  contains "@" u = false ->
  startswith "http" (u ++ String "@" rest) = false ->
  contains "/@" (u ++ String "@" rest) = false ->
  normalize s
  = Ok (u ++ String "@" rest, "https://" ++ take_until (Ascii.eqb "@") rest).
Proof.
  intros Hx Hu Hh Hp. unfold normalize. rewrite Hx, Hh, Hp.
  rewrite contains_char_app, contains_char_cons, Ascii.eqb_refl, orb_true_r.
  cbn [andb negb]. rewrite (split_app "@" u rest Hu).
  destruct (split_head "@" rest) as [r ->]. reflexivity.
Qed.

End NormalizeFacts.

(** Line 45 apart: for every identifier [acct:user@host] in which
    neither [user] nor [host] contains an [@], [user] does not start with
    [http], and [user@host] contains neither [/@] nor a colon followed by
    a digit, [normalize] strips [acct:] and returns the resource id
    [user@host] with the discovery base [https://host]. *)
Lemma normalize_acct_user_host (user host : string) :
  contains "@" user = false ->
  contains "@" host = false ->
  startswith "http" user = false ->
  contains "/@" (user ++ "@" ++ host) = false ->
  port_re_search (user ++ "@" ++ host) = false ->
  normalize ("acct:" ++ user ++ "@" ++ host)
  = Ok (user ++ "@" ++ host, "https://" ++ host).
Proof.
  intros Hu Hh Hhttp Hslash Hport.
  rewrite (normalize_email _ user host); auto.
  - now rewrite (take_until_none "@" host Hh).
  - rewrite drop_acct_acct. now apply drop_port_id.
  - change (String "@" host) with ("@" ++ host).
    now rewrite startswith_http_email.
Qed.

Example normalize_acct_lamia :
  normalize ("acct:" ++ "lamia" ++ "@" ++ "lamia.social")
  = Ok ("lamia" ++ "@" ++ "lamia.social", "https://" ++ "lamia.social").
Proof. apply normalize_acct_user_host; reflexivity. Qed.

(** C1 fails on the code: [acct:httpd@example.com] is of the form
    [acct:user@host] and has no [/@], yet the test of line 45, made before
    that of line 54, takes it for an address because its user name starts
    with [http]; [urlparse] finds no net location in it and the discovery
    base is [https://] with no host, not [https://example.com]. *)
Theorem normalize_acct_http_user :
  contains "@" "httpd" = false /\ contains "@" "example.com" = false /\
  contains "/@" ("httpd" ++ "@" ++ "example.com") = false /\
  normalize ("acct:" ++ "httpd" ++ "@" ++ "example.com")
  = Ok ("httpd@example.com", "https://") /\
  normalize ("acct:" ++ "httpd" ++ "@" ++ "example.com")
  <> Ok ("httpd" ++ "@" ++ "example.com", "https://" ++ "example.com").
Proof. repeat split; try reflexivity; discriminate. Qed.

(** C5 (amended): when the identifier, once [acct:] and the ports are
    dropped, does not start with [http], contains an [@] and no [/@], it
    is its own resource id, and the discovery base is [https://] followed
    by what stands between its first [@] and its next [@] (the end of the
    string when there is no other): all that follows the first [@] only
    when that holds no further [@]. *)
Theorem normalize_email_style (s : string) :
  startswith "http" (drop_port (drop_acct s)) = false ->
  contains "@" (drop_port (drop_acct s)) = true ->
  contains "/@" (drop_port (drop_acct s)) = false ->
  exists u rest,
    drop_port (drop_acct s) = u ++ "@" ++ rest /\
    contains "@" u = false /\
    normalize s
    = Ok (drop_port (drop_acct s), "https://" ++ take_until (Ascii.eqb "@") rest) /\
    (contains "@" rest = false ->
     normalize s = Ok (drop_port (drop_acct s), "https://" ++ rest)).
Proof.
  intros Hh Hat Hp.
  destruct (contains_char_split "@" _ Hat) as (u & rest & Hx & Hu).
  exists u, rest. rewrite Hx in *.
  assert (normalize s = Ok (u ++ String "@" rest,
                            "https://" ++ take_until (Ascii.eqb "@") rest)) as E
    by now apply normalize_email.
  repeat split; auto.
  intros Hr. now rewrite E, (take_until_none "@" rest Hr).
Qed.

Lemma normalize_email_style_witness :
  exists u rest,
    drop_port (drop_acct "a@b@c") = u ++ "@" ++ rest /\
    contains "@" u = false /\
    normalize "a@b@c"
    = Ok (drop_port (drop_acct "a@b@c"), "https://" ++ take_until (Ascii.eqb "@") rest) /\
    (contains "@" rest = false ->
     normalize "a@b@c" = Ok (drop_port (drop_acct "a@b@c"), "https://" ++ rest)).
Proof. apply (normalize_email_style "a@b@c"); reflexivity. Defined.

(** C5 as stated fails: with two [@], the discovery base stops at the
    second one.  Besides, the resource id has lost its ports, and an
    identifier that starts with [http] is not split at all. *)
Lemma normalize_email_style_counterexample :
  (contains "@" "a@b@c" = true /\ contains "/@" "a@b@c" = false /\
   normalize "a@b@c" = Ok ("a@b@c", "https://b") /\
   normalize "a@b@c" <> Ok ("a@b@c", "https://" ++ "b@c"))
  /\
  (contains "@" "lamia@lamia.social:8080" = true /\
   contains "/@" "lamia@lamia.social:8080" = false /\
   normalize "lamia@lamia.social:8080"
   = Ok ("lamia@lamia.social", "https://lamia.social"))
  /\
  (contains "@" "httpd@example.com" = true /\
   contains "/@" "httpd@example.com" = false /\
   normalize "httpd@example.com" = Ok ("httpd@example.com", "https://")).
Proof. repeat split; try reflexivity. discriminate. Qed.

Section ReplaceFacts.

Lemma replace_none (old new s : string) :
  contains old s = false -> replace old new s = s.
Proof.
  unfold replace. induction s as [|c t IH]; [reflexivity|].
  cbn [contains replace_from]. intros H.
  apply orb_false_elim in H as [-> Ht]. now rewrite (IH Ht).
Qed.

Lemma replace_from_skip (old new p r : string) :
  replace_from old new (String.length p) (p ++ r) = replace old new r.
Proof.
  induction p as [|c p IH]; [reflexivity|].
  rewrite append_cons. exact IH.
Qed.

Lemma replace_prefix (c : ascii) (old new r : string) :
  replace (String c old) new (String c old ++ r)
  = new ++ replace (String c old) new r.
Proof.
  unfold replace at 1. rewrite append_cons. cbn [replace_from].
  rewrite <- append_cons, prefix_app.
  cbn [String.length]. rewrite Nat.sub_1_r. cbn [Nat.pred].
  now rewrite replace_from_skip.
Qed.

End ReplaceFacts.

Section UnsafeFacts.

Lemma remove_unsafe_id (s : string) : unsafe_free s = true -> remove_unsafe s = s.
Proof.
  unfold unsafe_free, remove_unsafe. intros H.
  apply andb_prop in H as [H Hlf]. apply andb_prop in H as [Htab Hcr].
  apply negb_true_iff in Htab, Hcr, Hlf.
  now rewrite (replace_none _ _ _ Htab), (replace_none _ _ _ Hcr),
    (replace_none _ _ _ Hlf).
Qed.

End UnsafeFacts.




(** The steps of [normalize] only delete characters. *)
Section CharFacts.

Variable c : ascii.

Lemma has_slice_from (n : nat) (s : string) :
  contains (String c "") (slice_from n s) = true -> contains (String c "") s = true.
Proof.
  revert s. induction n as [|n IH]; intros [|a t]; try easy.
  cbn [slice_from]. intros H. rewrite contains_char_cons, (IH t H).
  apply orb_true_r.
Qed.

Lemma has_take_until (p : ascii -> bool) (s : string) :
  contains (String c "") (take_until p s) = true -> contains (String c "") s = true.
Proof.
  induction s as [|a t IH]; [easy|].
  cbn [take_until]. destruct (p a); [discriminate|].
  rewrite !contains_char_cons. destruct (Ascii.eqb c a); [easy|]. exact IH.
Qed.

Lemma has_port_re_sub_from (b : bool) (s : string) :
  contains (String c "") (port_re_sub_from b s) = true -> contains (String c "") s = true.
Proof.
  revert b. induction s as [|a t IH]; intros b; [easy|].
  rewrite port_re_sub_from_cons, contains_char_cons.
  destruct (b && is_digit a);
    [intros H; rewrite (IH _ H); apply orb_true_r|].
  destruct (Ascii.eqb a ":" && starts_digit t);
    [intros H; rewrite (IH _ H); apply orb_true_r|].
  rewrite contains_char_cons. destruct (Ascii.eqb c a); [easy|]. apply IH.
Qed.

Lemma has_drop_acct (s : string) : contains (String c "") (drop_acct s) = true -> contains (String c "") s = true.
Proof.
  unfold drop_acct. destruct (startswith "acct:" s); [apply has_slice_from | easy].
Qed.

Lemma has_drop_port (s : string) : contains (String c "") (drop_port s) = true -> contains (String c "") s = true.
Proof.
  unfold drop_port. destruct (contains ":" _); [apply has_port_re_sub_from | easy].
Qed.

End CharFacts.

Section CleaningFacts.

Variable c : ascii.

Lemma has_replace_from (old : string) (s : string) : forall k,
  contains (String c "") (replace_from old "" k s) = true ->
  contains (String c "") s = true.
Proof.
  induction s as [|a t IH]; intros k; [easy|].
  cbn [replace_from]. rewrite contains_char_cons. destruct k as [|k].
  - destruct (String.prefix old (String a t)).
    + rewrite append_nil. intros H. rewrite (IH _ H). apply orb_true_r.
    + rewrite contains_char_cons. destruct (Ascii.eqb c a); [easy|]. apply IH.
  - intros H. rewrite (IH _ H). apply orb_true_r.
Qed.

Lemma has_remove_unsafe (s : string) :
  contains (String c "") (remove_unsafe s) = true -> contains (String c "") s = true.
Proof.
  unfold remove_unsafe, replace. intros H.
  now apply has_replace_from, has_replace_from, has_replace_from in H.
Qed.

Lemma has_lstrip_c0 (s : string) :
  contains (String c "") (lstrip_c0 s) = true -> contains (String c "") s = true.
Proof.
  destruct (lstrip_c0_suffix s) as [n ->]. apply has_slice_from.
Qed.

End CleaningFacts.

Section NormalizeTotal.

Lemma index_split_email (x : string) :
  contains "@" x = true ->
  exists u rest, x = u ++ String "@" rest /\ contains "@" u = false
    /\ index (split "@" x) 1 = Ok (take_until (Ascii.eqb "@") rest).
Proof.
  intros Hat. destruct (contains_char_split "@" x Hat) as (u & rest & -> & Hu).
  exists u, rest. repeat split; auto.
  rewrite (split_app "@" u rest Hu).
  now destruct (split_head "@" rest) as [r ->].
Qed.

(** What [urlsplit] raises on a net location is a [ValueError]. *)
Lemma checked_netloc_value_error (nl : string) (e : exn) :
  checked_netloc nl = Raise e -> exists msg, e = ValueError msg.
Proof.
  unfold checked_netloc. destruct (bad_brackets nl); [intros [= <-]; eauto|].
  destruct (contains "[" nl && contains "]" nl); [|discriminate].
  unfold check_bracketed_netloc, check_bracketed_host.
  repeat match goal with
         | |- context [if ?b then _ else _] => destruct b
         | |- context [match Ipaddress.ip_address ?h with _ => _ end] =>
             destruct (Ipaddress.ip_address h)
         end; cbn; try discriminate; intros [= <-]; eauto.
Qed.

(** The one way [normalize] can fail: inside [urlparse], on an
    identifier with a square bracket. *)
Lemma normalize_raise (s : string) (e : exn) :
  normalize s = Raise e ->
  (exists msg, e = ValueError msg)
  /\ (contains "[" s = true \/ contains "]" s = true).
Proof.
  unfold normalize.
  set (x := drop_port (drop_acct s)).
  assert (forall c, contains (String c "") x = true -> contains (String c "") s = true) as Hsub
    by (intros c H; now apply has_drop_acct, has_drop_port).
  assert (forall nl, contains "[" nl = true \/ contains "]" nl = true ->
            (forall c, contains (String c "") nl = true -> contains (String c "") x = true) ->
            contains "[" s = true \/ contains "]" s = true) as Hbad.
  { intros nl [H|H] Hin; [left | right]; now apply Hsub, Hin. }
  destruct (startswith "http" x).
  - destruct (urlparse_netloc x) as [nl|e'] eqn:E; [discriminate|].
    intros [= <-].
    destruct (netloc_piece x) as [H|[n H]]; rewrite H in E; [discriminate|].
    split; [exact (checked_netloc_value_error _ _ E)|].
    apply (Hbad _ (checked_netloc_raise _ _ E)). intros c Hc.
    now apply has_take_until, has_slice_from, has_remove_unsafe, has_lstrip_c0 in Hc.
  - destruct (contains "@" x && negb (contains "/@" x)) eqn:G.
    + apply andb_prop in G as [Hat _].
      destruct (index_split_email x Hat) as (u & rest & _ & _ & ->). discriminate.
    + rewrite urlparse_netloc_https.
      destruct (checked_netloc _) as [nl|e'] eqn:E; [discriminate|].
      intros [= <-]. split; [exact (checked_netloc_value_error _ _ E)|].
      apply (Hbad _ (checked_netloc_raise _ _ E)). intros c Hc.
      now apply has_take_until, has_remove_unsafe in Hc.
Qed.

End NormalizeTotal.

(** C6 (amended): [normalize] has no [MalformedIdentifier] and checks
    nothing.  The empty string gives the pair of an empty resource id and
    [https://]; every identifier (of code points up to 255) gives a pair,
    unless [urlparse] raises, which it does with a [ValueError] and only
    when the identifier holds a square bracket. *)
Theorem normalize_total :
  normalize "" = Ok ("", "https://")
  /\ forall s : string,
       (exists rid base, normalize s = Ok (rid, base))
       \/ (exists msg, normalize s = Raise (ValueError msg)
                       /\ (contains "[" s = true \/ contains "]" s = true)).
Proof.
  split; [reflexivity|]. intros s.
  destruct (normalize s) as [[rid base]|e] eqn:E; [left; eauto|].
  right. destruct (normalize_raise s e E) as [[msg ->] H]. eauto.
Qed.

(** C6 as stated fails: the empty identifier is answered, not refused. *)
Lemma normalize_empty_counterexample :
  normalize "" = Ok ("", "https://") /\ ~ raises (normalize "").
Proof. split; [reflexivity|]. intros [e H]. discriminate. Qed.

Section NormalizeBase.

(** Whatever [normalize] returns as the address starts with [https://]. *)
Lemma normalize_https_prefix (s rid base : string) :
  normalize s = Ok (rid, base) -> startswith "https://" base = true.
Proof.
  unfold normalize.
  destruct (startswith "http" _).
  - destruct (urlparse_netloc _); [|discriminate].
    intros [= _ <-]. apply prefix_app.
  - destruct (_ && _).
    + destruct (index _ 1); [|discriminate]. intros [= _ <-]. apply prefix_app.
    + destruct (urlparse_netloc _); [|discriminate].
      intros [= _ <-]. apply prefix_app.
Qed.

Lemma unsafe_free_false (s : string) :
  unsafe_free s = false ->
  contains TAB s = true \/ contains CR s = true \/ contains LF s = true.
Proof.
  unfold unsafe_free.
  destruct (contains TAB s), (contains CR s), (contains LF s); cbn; auto.
Qed.

Lemma unsafe_free_sub (s t : string) :
  (forall c, contains (String c "") t = true -> contains (String c "") s = true) ->
  unsafe_free s = true -> unsafe_free t = true.
Proof.
  intros Hsub Hs. destruct (unsafe_free t) eqn:Ht; [reflexivity|].
  unfold unsafe_free in Hs.
  apply andb_prop in Hs as [Hs Hlf]. apply andb_prop in Hs as [Htab Hcr].
  apply negb_true_iff in Htab, Hcr, Hlf.
  destruct (unsafe_free_false t Ht) as [H|[H|H]];
    unfold TAB, CR, LF in *; apply Hsub in H; congruence.
Qed.

(** Without tab and line break in the identifier, the address has no
    colon followed by a digit. *)
Lemma normalize_base_port (s rid base : string) :
  unsafe_free s = true ->
  normalize s = Ok (rid, base) ->
  port_re_search base = false.
Proof.
  intros Hu. pose proof (drop_port_always_clean (drop_acct s)) as Hx.
  assert (unsafe_free (drop_port (drop_acct s)) = true) as Hux.
  { apply (unsafe_free_sub s); [|exact Hu].
    intros c H. now apply has_drop_acct, has_drop_port. }
  unfold normalize.
  set (x := drop_port (drop_acct s)) in *.
  assert (forall nl, port_re_search nl = false ->
            port_re_search ("https://" ++ nl) = false) as Hbase
    by (intros nl Hnl; now rewrite port_search_https).
  destruct (startswith "http" x).
  - destruct (urlparse_netloc x) as [nl|] eqn:E; [|discriminate].
    intros [= <- <-]. apply Hbase.
    destruct (netloc_piece x) as [H|[n H]]; rewrite H in E.
    + now injection E as <-.
    + apply checked_netloc_same in E as ->.
      destruct (lstrip_c0_suffix x) as [m ->].
      rewrite remove_unsafe_id.
      * now apply port_search_take_until, port_search_slice_from,
          port_search_slice_from.
      * apply (unsafe_free_sub x); [|exact Hux]. intros c. apply has_slice_from.
  - destruct (contains "@" x && negb (contains "/@" x)) eqn:B.
    + apply andb_prop in B as [Hat _].
      destruct (index_split_email x Hat) as (u & rest & Ex & _ & ->).
      intros [= <- <-]. apply Hbase. apply port_search_take_until.
      rewrite Ex in Hx. apply port_search_app_r in Hx.
      rewrite port_re_search_cons in Hx. now apply orb_false_elim in Hx as [_ Hx].
    + rewrite urlparse_netloc_https.
      destruct (checked_netloc _) as [nl|] eqn:E; [|discriminate].
      apply checked_netloc_same in E as ->.
      intros [= <- <-]. apply Hbase. rewrite (remove_unsafe_id x Hux).
      now apply port_search_take_until.
Qed.



End NormalizeBase.



(** The witness in figures: the port is gone from both parts. *)
Example normalize_host_port :
  normalize "acct:lamia@lamia.social:8080"
  = Ok ("lamia@lamia.social", "https://lamia.social")
  /\ normalize "lamia.social:8080/users/lamia"
     = Ok ("lamia.social/users/lamia", "https://lamia.social")
  /\ normalize "https://lamia.social:8080/users/lamia"
     = Ok ("lamia.social/users/lamia", "https://lamia.social").
Proof. repeat split. Qed.


(** ** [finger] *)

(** C8: whenever [normalize] answers (resource id, discovery base),
    [finger] sends one request: a GET to the base followed by
    [/.well-known/webfinger], with the resource id as the [resource]
    parameter, an [Accept] header that names [application/jrd+json] before
    [application/json], and the [User-Agent] [Lamia/] plus the version. *)
Theorem finger_request (version : string) (descriptor : Type)
    (get : request -> result response) (identifier uid base : string) :
  normalize identifier = Ok (uid, base) ->
  exists sent accept i j,
    fst (finger version descriptor get identifier) = [sent]
    /\ req_method sent = "GET"
    /\ req_url sent = base ++ "/.well-known/webfinger"
    /\ req_params sent = [("resource", uid)]
    /\ dict_get "Accept" (req_headers sent) = Some accept
    /\ find_sub "application/jrd+json" accept = Some i
    /\ find_sub "application/json" accept = Some j
    /\ (i < j)%nat
    /\ dict_get "User-Agent" (req_headers sent) = Some ("Lamia/" ++ version).
Proof.
  intros H. unfold finger. rewrite H.
  eexists _, _, _, _. cbn [fst req_method req_url req_params req_headers].
  repeat split; try reflexivity.
  cbv. lia.
Qed.

Lemma finger_request_witness :
  exists sent accept i j,
    fst (finger "0.1.0" unit (fun _ => Raise (ClientError "unreachable"))
           "acct:lamia@lamia.social") = [sent]
    /\ req_method sent = "GET"
    /\ req_url sent = "https://lamia.social" ++ "/.well-known/webfinger"
    /\ req_params sent = [("resource", "lamia@lamia.social")]
    /\ dict_get "Accept" (req_headers sent) = Some accept
    /\ find_sub "application/jrd+json" accept = Some i
    /\ find_sub "application/json" accept = Some j
    /\ (i < j)%nat
    /\ dict_get "User-Agent" (req_headers sent) = Some ("Lamia/" ++ "0.1.0").
Proof.
  apply (finger_request "0.1.0" unit _ "acct:lamia@lamia.social"). reflexivity.
Defined.

(** C9 fails on the code: [finger] never returns.  Where [normalize]
    answers and the server does too, line 88 raises [NameError], the
    module having no [json]; so it is for [acct:lamia@lamia.social]
    answered with the descriptor of the scenario. *)
Theorem finger_never_returns (version : string) (descriptor : Type) :
  (forall get identifier,
     ~ returns (snd (finger version descriptor get identifier)))
  /\ (forall get identifier uid base resp,
        normalize identifier = Ok (uid, base) ->
        get (Request "GET" (base ++ "/.well-known/webfinger")
               (headers version) [("resource", uid)]) = Ok resp ->
        snd (finger version descriptor get identifier) = Raise (NameError "json"))
  /\ snd (finger version descriptor
            (fun _ => Ok (Response 200 lamia_descriptor))
            "acct:lamia@lamia.social")
     = Raise (NameError "json").
Proof.
  split; [|split].
  - intros get identifier [d H]. unfold finger in H.
    destruct (normalize identifier) as [[uid url]|]; [|discriminate].
    cbn [snd] in H. destruct (get _); discriminate.
  - intros get identifier uid base resp Hn Hg. unfold finger.
    rewrite Hn. cbn [snd]. now rewrite Hg.
  - reflexivity.
Qed.

(** ** The not-found helpers *)

(** C10: each helper raises [HTTPException(404)] exactly when the lookup
    it awaits answers [None], raises nothing else then, and hands a row
    that was found back as it is. *)
Theorem or_404_helpers (args row : Type)
    (lookup : Gino.fetch args row) (a : args) (rv : option row) :
  lookup a = Ok rv ->
  Gino.or_404_answer row (Gino.StarletteModelMixin_get_or_404 args row lookup a) rv
  /\ Gino.or_404_answer row (Gino.GinoExecutor_first_or_404 args row lookup a) rv
  /\ Gino.or_404_answer row (Gino.GinoConnection_first_or_404 args row lookup a) rv
  /\ Gino.or_404_answer row (Gino.GinoEngine_first_or_404 args row lookup a) rv.
Proof.
  intros H.
  unfold Gino.StarletteModelMixin_get_or_404, Gino.GinoExecutor_first_or_404,
    Gino.GinoConnection_first_or_404, Gino.GinoEngine_first_or_404.
  rewrite H. cbn [mbind result_bind].
  assert (Gino.or_404_answer row
            match rv with Some r => Ok r | None => Raise (HTTPException 404) end rv)
    as Hrv; [|now repeat split; apply Hrv].
  unfold Gino.or_404_answer, raises. destruct rv as [r|].
  - repeat split; try congruence. intros [e He]. discriminate.
  - repeat split; try congruence. eauto.
Qed.

Lemma or_404_helpers_witness :
  (Gino.or_404_answer string (Gino.StarletteModelMixin_get_or_404 nat string Gino.sample_lookup 2%nat) None
   /\ Gino.or_404_answer string (Gino.GinoExecutor_first_or_404 nat string Gino.sample_lookup 2%nat) None
   /\ Gino.or_404_answer string (Gino.GinoConnection_first_or_404 nat string Gino.sample_lookup 2%nat) None
   /\ Gino.or_404_answer string (Gino.GinoEngine_first_or_404 nat string Gino.sample_lookup 2%nat) None)
  /\ Gino.StarletteModelMixin_get_or_404 nat string Gino.sample_lookup 2%nat = Raise (HTTPException 404)
  /\ Gino.GinoEngine_first_or_404 nat string Gino.sample_lookup 1%nat = Ok "lamia".
Proof.
  split; [|split; reflexivity].
  apply (or_404_helpers nat string Gino.sample_lookup 2%nat None). reflexivity.
Defined.

(** ** The relationship ledger *)

Module LedgerFacts.
Import Ledger.

Lemma force_blocked_flags (now : Z) (e : Follow) :
  blocked (force_blocked now e) = true
  /\ approved (force_blocked now e) = false
  /\ pending_review (force_blocked now e) = false.
Proof.
  unfold force_blocked.
  destruct (blocked e) eqn:B, (approved e) eqn:A, (pending_review e) eqn:P;
    cbn; auto.
Qed.

Lemma force_blocked_idem (now : Z) (e : Follow) :
  force_blocked now (force_blocked now e) = force_blocked now e.
Proof.
  destruct (force_blocked_flags now e) as (B & A & P).
  unfold force_blocked at 1. now rewrite B, A, P.
Qed.

Lemma force_blocked_ok (now : Z) (e : Follow) : edge_ok (force_blocked now e).
Proof.
  destruct (force_blocked_flags now e) as (_ & A & _).
  intros [A' _]. congruence.
Qed.

Lemma sever_hit (now target actor : Z) (f : gmap (Z * Z) Follow) k e :
  between target actor k -> f !! k = Some e ->
  sever now target actor f !! k = Some (force_blocked now e).
Proof.
  intros Hk He. unfold sever. rewrite !lookup_alter.
  destruct Hk as [-> | ->]; repeat case_decide; simplify_eq;
    rewrite ?He; cbn; rewrite ?force_blocked_idem; reflexivity.
Qed.

Lemma sever_miss (now target actor : Z) (f : gmap (Z * Z) Follow) k :
  ~ between target actor k ->
  sever now target actor f !! k = f !! k.
Proof.
  intros Hk. unfold sever, between in *. rewrite !lookup_alter.
  repeat case_decide; subst; tauto.
Qed.

Lemma sever_none (now target actor : Z) (f : gmap (Z * Z) Follow) k :
  f !! k = None -> sever now target actor f !! k = None.
Proof.
  intros H. unfold sever. rewrite !lookup_alter.
  repeat case_decide; simplify_eq; now rewrite ?H.
Qed.

Lemma between_dec (target actor : Z) k :
  between target actor k \/ ~ between target actor k.
Proof.
  unfold between.
  destruct (decide (k = (actor, target))), (decide (k = (target, actor))); tauto.
Qed.

(** An edge after the fold is the edge before it, forced or not. *)
Lemma foldr_sever_lookup (now target : Z) (actors : list Z)
    (f : gmap (Z * Z) Follow) k :
  foldr (sever now target) f actors !! k = f !! k
  \/ foldr (sever now target) f actors !! k = force_blocked now <$> f !! k.
Proof.
  induction actors as [|a actors IH]; [now left|].
  cbn [foldr]. destruct (between_dec target a k) as [Hk|Hk].
  - right. destruct (foldr _ f actors !! k) as [e1|] eqn:E1.
    + rewrite (sever_hit _ _ _ _ _ _ Hk E1).
      destruct IH as [<-|IH]; [reflexivity|].
      destruct (f !! k); cbn in *; [|discriminate].
      injection IH as ->. now rewrite force_blocked_idem.
    + rewrite (sever_none _ _ _ _ _ E1).
      destruct IH as [<-|IH]; [reflexivity|]. now destruct (f !! k).
  - rewrite (sever_miss _ _ _ _ _ Hk). exact IH.
Qed.

Lemma foldr_sever_hit (now target actor : Z) (actors : list Z)
    (f : gmap (Z * Z) Follow) k e :
  In actor actors -> between target actor k -> f !! k = Some e ->
  foldr (sever now target) f actors !! k = Some (force_blocked now e).
Proof.
  intros Hin Hk He. induction actors as [|a actors IH]; [destruct Hin|].
  cbn [foldr]. destruct Hin as [-> | Hin].
  - destruct (foldr_sever_lookup now target actors f k) as [E|E];
      rewrite He in E; rewrite (sever_hit _ _ _ _ _ _ Hk E);
      now rewrite ?force_blocked_idem.
  - specialize (IH Hin). destruct (between_dec target a k) as [Ha|Ha].
    + rewrite (sever_hit _ _ _ _ _ _ Ha IH). now rewrite force_blocked_idem.
    + now rewrite (sever_miss _ _ _ _ _ Ha).
Qed.

Lemma insert_consistent (l : ledger) k e :
  consistent l -> edge_ok e -> consistent (set_follows l (<[k := e]> (follows l))).
Proof.
  intros Hl He k' e'. cbn [set_follows follows]. rewrite lookup_insert.
  case_decide; [now intros [= <-] | apply Hl].
Qed.

Lemma delete_consistent (l : ledger) k :
  consistent l -> consistent (set_follows l (delete k (follows l))).
Proof.
  intros Hl k' e'. cbn [set_follows follows]. rewrite lookup_delete.
  case_decide; [discriminate | apply Hl].
Qed.

Lemma block_consistent (now account target : Z) (l : ledger) :
  consistent l -> consistent (blockViaAccount now account target l).
Proof.
  intros Hl k e'. unfold blockViaAccount. cbn [follows].
  destruct (foldr_sever_lookup now target (actors_of l account) (follows l) k)
    as [-> | ->]; [apply Hl|].
  destruct (follows l !! k); cbn; [|discriminate].
  intros [= <-]. apply force_blocked_ok.
Qed.

Lemma state_ok (c n : Z) :
  edge_ok (PENDING c n) /\ edge_ok (APPROVED c n) /\ edge_ok (BLOCKED c n).
Proof. repeat split; intros [A B]; discriminate. Qed.

Lemma step_consistent (l : ledger) (o : operation) :
  consistent l -> consistent (step l o).
Proof.
  intros Hl. unfold step.
  destruct o as [now src tgt|now src tgt|src tgt|src tgt|now account target];
    cbn [apply].
  - unfold requestFollow.
    destruct (follows l !! (src, tgt)) as [e|]; [destruct (is_none e); [|exact Hl]|];
      apply insert_consistent; auto;
      destruct (needs_approval l tgt); apply state_ok.
  - unfold approveFollow.
    destruct (follows l !! (src, tgt)) as [e|]; [|exact Hl].
    destruct (is_pending e); [|exact Hl].
    apply insert_consistent; auto. apply state_ok.
  - unfold rejectFollow.
    destruct (follows l !! (src, tgt)) as [e|]; [|exact Hl].
    destruct (is_pending e); [|exact Hl]. now apply delete_consistent.
  - unfold unfollow.
    destruct (follows l !! (src, tgt)) as [e|]; [|exact Hl].
    destruct (_ && _); [|exact Hl]. now apply delete_consistent.
  - now apply block_consistent.
Qed.

End LedgerFacts.

(** C2: from a ledger in which no follow edge is both approved and
    blocked, any sequence of [requestFollow], [approveFollow],
    [rejectFollow], [unfollow] and [blockViaAccount] leads to such a
    ledger; so it is, from the empty ledger, after every sequence. *)
Theorem no_edge_approved_and_blocked (os : list Ledger.operation) (l : Ledger.ledger) :
  Ledger.consistent l ->
  Ledger.consistent (Ledger.run os l)
  /\ forall k e, Ledger.follows (Ledger.run os l) !! k = Some e ->
       ~ (Ledger.approved e = true /\ Ledger.blocked e = true).
Proof.
  intros Hl.
  assert (Ledger.consistent (Ledger.run os l)) as H.
  { unfold Ledger.run. revert l Hl.
    induction os as [|o os IH]; intros l Hl; [exact Hl|].
    cbn [foldl]. apply IH. now apply LedgerFacts.step_consistent. }
  split; [exact H|]. intros k e. apply H.
Qed.

Lemma no_edge_approved_and_blocked_witness :
  Ledger.consistent (Ledger.run Ledger.sample_run Ledger.sample)
  /\ forall k e,
       Ledger.follows (Ledger.run Ledger.sample_run Ledger.sample) !! k = Some e ->
       ~ (Ledger.approved e = true /\ Ledger.blocked e = true).
Proof.
  apply no_edge_approved_and_blocked.
  intros k e. unfold Ledger.sample. cbn [Ledger.follows].
  rewrite lookup_insert. case_decide.
  - intros [= <-] [_ B]. discriminate.
  - rewrite lookup_singleton. case_decide; [|discriminate].
    intros [= <-] [_ B]. discriminate.
Defined.

(** C3: [blockViaAccount(A, T)] turns every follow edge between an actor
    of [A] and [T], in either direction and so an [APPROVED] one, into an
    edge that reads [blocked=true], [approved=false], and leaves a [Block]
    row for [(A, T)], all in the one step. *)
Theorem block_severs_follows (now account target actor : Z)
    (l : Ledger.ledger) (k : Z * Z) (e : Ledger.Follow) :
  In actor (Ledger.actors_of l account) ->
  Ledger.between target actor k ->
  Ledger.follows l !! k = Some e ->
  Ledger.is_approved e = true ->
  exists e',
    Ledger.follows (Ledger.blockViaAccount now account target l) !! k = Some e'
    /\ Ledger.blocked e' = true
    /\ Ledger.approved e' = false
    /\ Ledger.is_blocked e' = true
    /\ is_Some (Ledger.blocks (Ledger.blockViaAccount now account target l)
                  !! (account, target)).
Proof.
  intros Hin Hk He _. exists (Ledger.force_blocked now e).
  destruct (LedgerFacts.force_blocked_flags now e) as (B & A & _).
  unfold Ledger.blockViaAccount, Ledger.is_blocked. cbn [Ledger.follows Ledger.blocks].
  repeat split; auto.
  - now apply (LedgerFacts.foldr_sever_hit now target actor).
  - destruct (Ledger.blocks l !! (account, target)) eqn:E.
    + rewrite E. eauto.
    + rewrite lookup_insert_eq. eauto.
Qed.

Lemma block_severs_follows_witness :
  exists e',
    Ledger.follows (Ledger.blockViaAccount 7 1 20 Ledger.sample) !! (10, 20)%Z = Some e'
    /\ Ledger.blocked e' = true
    /\ Ledger.approved e' = false
    /\ Ledger.is_blocked e' = true
    /\ is_Some (Ledger.blocks (Ledger.blockViaAccount 7 1 20 Ledger.sample)
                  !! (1, 20)%Z).
Proof.
  apply (block_severs_follows 7 1 20 10 Ledger.sample (10, 20)%Z
           (Ledger.APPROVED 5 5)).
  - now left.
  - now left.
  - reflexivity.
  - reflexivity.
Defined.

(** * Further properties *)

(** ** [normalize] and [finger] *)

Section NormalizeMore.

Lemma drop_port_sub (s : string) : drop_port s = port_re_sub s.
Proof.
  unfold drop_port. destruct (contains ":" (replace "://" "" s)) eqn:G; [reflexivity|].
  symmetry. apply port_re_sub_id.
  destruct (port_re_search s) eqn:Hs; [|reflexivity].
  pose proof (search_survives_replace s 0 (prefix_nil s) Hs) as H.
  unfold replace in G. congruence.
Qed.

Lemma normalize_scheme_steps (r : string) :
  drop_port (drop_acct ("http://" ++ r)) = "http://" ++ port_re_sub r
  /\ drop_port (drop_acct ("https://" ++ r)) = "https://" ++ port_re_sub r.
Proof.
  split.
  - change (drop_acct ("http://" ++ r)) with ("http://" ++ r).
    rewrite drop_port_sub. reflexivity.
  - change (drop_acct ("https://" ++ r)) with ("https://" ++ r).
    rewrite drop_port_sub. reflexivity.
Qed.

Lemma prefix_app_r (p : string) : forall s t,
  String.prefix p s = true -> String.prefix p (s ++ t) = true.
Proof.
  induction p as [|a p IH]; intros s t H; [apply prefix_nil|].
  destruct s as [|c s]; [discriminate|].
  rewrite append_cons. rewrite prefix_cons in *.
  apply andb_prop in H as [-> H]. now rewrite (IH s t H).
Qed.

Lemma replace_https_in_http (y : string) :
  replace "https://" "" ("http://" ++ y) = "http://" ++ replace "https://" "" y.
Proof. reflexivity. Qed.

End NormalizeMore.

(** X1: the test of line 40 changes nothing: for every identifier, lines
    40-41 leave [port_re.sub('', identifier)]. *)
Theorem port_guard_redundant (s : string) :
  drop_port s = port_re_sub s /\ port_re_search (drop_port s) = false.
Proof. split; [apply drop_port_sub | apply drop_port_always_clean]. Qed.

(** X2: an identifier written with [http://] and the same written with
    [https://] are normalized alike, whatever follows the scheme. *)
Theorem normalize_http_as_https (r : string) :
  normalize ("http://" ++ r) = normalize ("https://" ++ r).
Proof.
  unfold normalize.
  destruct (normalize_scheme_steps r) as [-> ->].
  set (y := port_re_sub r).
  change (startswith "http" ("http://" ++ y)) with true.
  change (startswith "http" ("https://" ++ y)) with true.
  cbv iota. rewrite urlparse_netloc_http, urlparse_netloc_https.
  rewrite replace_https_in_http.
  rewrite (replace_prefix "h" "ttp://" "" (replace "https://" "" y)).
  rewrite (replace_prefix "h" "ttps://" "" y).
  reflexivity.
Qed.



Example normalize_path_handle_port :
  normalize "acct:lamia.social:8080/@lamia"
  = Ok ("lamia.social/@lamia", "https://lamia.social").
Proof. reflexivity. Qed.

(** X4: the [acct:] marker is optional and taken off once: before an
    identifier that does not start with [acct:] itself, it does not change
    what [normalize] answers. *)
Theorem normalize_acct_optional (s : string) :
  startswith "acct:" s = false ->
  normalize ("acct:" ++ s) = normalize s.
Proof.
  intros H. unfold normalize. rewrite drop_acct_acct.
  assert (drop_acct s = s) as -> by (unfold drop_acct; now rewrite H).
  reflexivity.
Qed.

Lemma normalize_acct_optional_witness :
  normalize ("acct:" ++ "lamia.social/@lamia") = normalize "lamia.social/@lamia".
Proof. apply normalize_acct_optional. reflexivity. Defined.

(** X5: whatever the identifier, an address that [normalize] returns
    starts with [https://]; it has no colon followed by a digit when the
    identifier has no tab, carriage return or line feed. *)
Theorem normalize_forces_https (s rid base : string) :
  normalize s = Ok (rid, base) ->
  startswith "https://" base = true
  /\ (unsafe_free s = true -> port_re_search base = false).
Proof.
  intros H. split; [exact (normalize_https_prefix s rid base H)|].
  intros Hu. exact (normalize_base_port s rid base Hu H).
Qed.

Lemma normalize_forces_https_witness :
  normalize "http://lamia.social:8080/users/lamia:443"
  = Ok ("lamia.social/users/lamia", "https://lamia.social")
  /\ startswith "https://" "https://lamia.social" = true
  /\ (unsafe_free "http://lamia.social:8080/users/lamia:443" = true ->
      port_re_search "https://lamia.social" = false).
Proof.
  split; [reflexivity|].
  apply (normalize_forces_https "http://lamia.social:8080/users/lamia:443"
           "lamia.social/users/lamia" "https://lamia.social").
  reflexivity.
Defined.

(** X6: [finger] sends at most one request, and none when [normalize]
    raises, whose exception it hands on; the request goes to an
    [https://] URL, never to another scheme. *)
Theorem finger_only_https (version : string) (descriptor : Type)
    (get : request -> result response) (identifier : string) :
  (length (fst (finger version descriptor get identifier)) <= 1)%nat
  /\ (forall sent, In sent (fst (finger version descriptor get identifier)) ->
        req_method sent = "GET"
        /\ startswith "https://" (req_url sent) = true)
  /\ (forall e, normalize identifier = Raise e ->
        finger version descriptor get identifier = ([], Raise e)).
Proof.
  unfold finger.
  destruct (normalize identifier) as [[uid url]|e] eqn:E.
  - split; [cbn; lia|]. split; [|discriminate].
    intros sent [<-|[]]. split; [reflexivity|]. cbn [req_url].
    pose proof (normalize_https_prefix identifier uid url E) as Hp.
    now apply prefix_app_r.
  - split; [cbn; lia|]. split; [intros sent []|]. now intros e' [= <-].
Qed.

(** ** The middleware *)

(** X7: an exception of the lookup is handed on as it is by each helper:
    a failure of the database is never turned into a 404, nor into a
    row. *)
Theorem or_404_hands_on_errors (args row : Type)
    (lookup : Gino.fetch args row) (a : args) (e : exn) :
  lookup a = Raise e ->
  Gino.StarletteModelMixin_get_or_404 args row lookup a = Raise e
  /\ Gino.GinoExecutor_first_or_404 args row lookup a = Raise e
  /\ Gino.GinoConnection_first_or_404 args row lookup a = Raise e
  /\ Gino.GinoEngine_first_or_404 args row lookup a = Raise e.
Proof.
  intros H.
  unfold Gino.StarletteModelMixin_get_or_404, Gino.GinoExecutor_first_or_404,
    Gino.GinoConnection_first_or_404, Gino.GinoEngine_first_or_404.
  now rewrite H.
Qed.

Lemma or_404_hands_on_errors_witness :
  Gino.StarletteModelMixin_get_or_404 nat string
    (fun _ => Raise (DatabaseError "connection lost")) 1%nat
  = Raise (DatabaseError "connection lost")
  /\ Gino.GinoExecutor_first_or_404 nat string
       (fun _ => Raise (DatabaseError "connection lost")) 1%nat
     = Raise (DatabaseError "connection lost")
  /\ Gino.GinoConnection_first_or_404 nat string
       (fun _ => Raise (DatabaseError "connection lost")) 1%nat
     = Raise (DatabaseError "connection lost")
  /\ Gino.GinoEngine_first_or_404 nat string
       (fun _ => Raise (DatabaseError "connection lost")) 1%nat
     = Raise (DatabaseError "connection lost").
Proof.
  apply (or_404_hands_on_errors nat string
           (fun _ => Raise (DatabaseError "connection lost")) 1%nat).
  reflexivity.
Defined.

(** X8: with a [dsn] that is set (true in Python's sense), [startup]
    binds to it and reads none of [driver], [host], [port], [user],
    [password] and [database]: two configurations that agree on [dsn],
    [echo], the pool sizes and [ssl] lead to the same call, even when
    one of them fails on the other entries. *)
Theorem startup_dsn_overrides (c1 c2 : GinoStartup.config) (d : GinoStartup.value) :
  c1 "dsn" None = Ok d ->
  GinoStartup.truthy d = true ->
  GinoStartup.agree c1 c2 ->
  GinoStartup.startup c1 = GinoStartup.startup c2
  /\ forall call, GinoStartup.startup c1 = Ok call -> GinoStartup.bind call = d.
Proof.
  intros Hd Ht (A1 & A2 & A3 & A4 & A5).
  unfold GinoStartup.startup.
  rewrite <- A1, <- A2, <- A3, <- A4, <- A5, Hd. cbn [mbind result_bind].
  rewrite Ht. cbn [mbind result_bind]. split; [reflexivity|].
  intros call.
  destruct (c1 "echo" _); [|discriminate].
  destruct (c1 "pool_min_size" _); [|discriminate].
  destruct (c1 "pool_max_size" _); [|discriminate].
  destruct (c1 "ssl" _); [|discriminate].
  cbn. now intros [= <-].
Qed.

Lemma startup_dsn_overrides_witness :
  GinoStartup.startup
    (GinoStartup.from_entries
       [("dsn", GinoStartup.VStr "postgresql://lamia@db/lamia");
        ("host", GinoStartup.VStr "elsewhere")])
  = GinoStartup.startup
      (GinoStartup.from_entries
         [("dsn", GinoStartup.VStr "postgresql://lamia@db/lamia")])
  /\ forall call,
       GinoStartup.startup
         (GinoStartup.from_entries
            [("dsn", GinoStartup.VStr "postgresql://lamia@db/lamia");
             ("host", GinoStartup.VStr "elsewhere")]) = Ok call ->
       GinoStartup.bind call = GinoStartup.VStr "postgresql://lamia@db/lamia".
Proof.
  apply (startup_dsn_overrides _ _ (GinoStartup.VStr "postgresql://lamia@db/lamia")).
  - reflexivity.
  - reflexivity.
  - repeat split.
Defined.

(** With an empty [dsn], the port goes through [int] when [URL] is built: a
    port written as a string is read as a number, and one that is no
    number stops [startup] before [set_bind]. *)
Example startup_port_of_string :
  GinoStartup.startup (GinoStartup.from_entries
       [("dsn", GinoStartup.VStr ""); ("port", GinoStartup.VStr " 5433 ")])
  = Ok (GinoStartup.BindCall
          (GinoStartup.VURL (GinoStartup.VStr "asyncpg") (GinoStartup.VStr "localhost")
             (GinoStartup.VInt 5433) (GinoStartup.VStr "postgres")
             (GinoStartup.VStr "") (GinoStartup.VStr "postgres"))
          (GinoStartup.VBool false) (GinoStartup.VInt 5) (GinoStartup.VInt 10)
          GinoStartup.VNone)
  /\ GinoStartup.startup
       (GinoStartup.from_entries
          [("dsn", GinoStartup.VStr ""); ("port", GinoStartup.VStr "default")])
     = Raise (ValueError "invalid literal for int() with base 10").
Proof. split; reflexivity. Qed.

(** ** Registration and login *)

Module UsersFacts.
Import Users.

Local Open Scope Z_scope.

Lemma opt_eqb_true (o : option string) (s : string) :
  opt_eqb o s = true <-> o = Some s.
Proof.
  destruct o as [x|]; cbn; [|split; discriminate].
  rewrite String.eqb_eq. split; congruence.
Qed.

Lemma somes_app {A} (l1 l2 : list (option A)) :
  somes (l1 ++ l2) = (somes l1 ++ somes l2)%list.
Proof. unfold somes. apply flat_map_app. Qed.

Lemma in_somes {A} (l : list (option A)) (x : A) :
  In x (somes l) <-> In (Some x) l.
Proof.
  unfold somes. rewrite in_flat_map. split.
  - intros ([y|] & Hy & Hx); cbn in Hx; [|tauto].
    destruct Hx as [<-|[]]. exact Hy.
  - intros H. exists (Some x). split; [exact H | now left].
Qed.

Lemma email_used_false (d : db) (e : string) :
  email_used d e = false -> ~ In e (somes (map a_email_address (accounts d))).
Proof.
  unfold email_used. intros H Hin.
  apply in_somes, in_map_iff in Hin as (a & Ha & Hin).
  assert (existsb (fun a => opt_eqb (a_email_address a) e) (accounts d) = true);
    [|congruence].
  apply existsb_exists. exists a. split; [exact Hin|]. now apply opt_eqb_true.
Qed.

Lemma user_name_used_false (d : db) (u : string) :
  user_name_used d u = false ->
  ~ In u (somes (map i_user_name (identities d))).
Proof.
  unfold user_name_used. intros H Hin.
  apply in_somes, in_map_iff in Hin as (i & Hi & Hin).
  assert (existsb (fun i => opt_eqb (i_user_name i) u || opt_eqb (i_display_name i) u)
            (identities d) = true); [|congruence].
  apply existsb_exists. exists i. split; [exact Hin|].
  apply orb_true_iff. left. now apply opt_eqb_true.
Qed.

(** Rows whose id lies below the one that is updated are left alone. *)
Lemma set_actor_identity_old (n k : Z) (l : list actor) :
  Forall (fun a => act_row_id a < n) l ->
  map (set_actor_identity n k) l = l.
Proof.
  induction 1 as [|a l Ha _ IH]; [reflexivity|]. cbn [map]. rewrite IH.
  unfold set_actor_identity. destruct (Z.eqb_spec (act_row_id a) n); [lia|reflexivity].
Qed.

Lemma set_identity_account_old (n k : Z) (l : list identity) :
  Forall (fun i => i_id i < n) l ->
  map (set_identity_account n k) l = l.
Proof.
  induction 1 as [|i l Hi _ IH]; [reflexivity|]. cbn [map]. rewrite IH.
  unfold set_identity_account. destruct (Z.eqb_spec (i_id i) n); [lia|reflexivity].
Qed.

Lemma set_identity_account_user_name (n k : Z) (l : list identity) :
  map i_user_name (map (set_identity_account n k) l) = map i_user_name l.
Proof.
  rewrite map_map. apply map_ext. intros i. unfold set_identity_account.
  now destruct (Z.eqb (i_id i) n).
Qed.

(** A registration that is refused says why and writes nothing. *)
Lemma register_refused (E : deps) now salt u e p d :
  accepted E u e p d = false ->
  exists m, RegisterUser_mutate E now salt u e p d = (d, Fail (GraphQLError m)).
Proof.
  unfold accepted, RegisterUser_mutate.
  destruct (validate_email E e); cbn [andb];
    try (intros _; eauto; fail);
    destruct (Z.of_nat (String.length (strip p)) <? 5); cbn [negb andb]; eauto;
    destruct (ALLOWED_NAME_CHARACTERS_RE_match u); cbn [negb andb]; eauto;
    destruct (email_used d e); cbn [negb andb]; eauto;
    destruct (user_name_used d u); cbn [negb andb]; eauto; discriminate.
Qed.

Lemma register_accepted (E : deps) now salt u e p d :
  accepted E u e p d = true ->
  wf d ->
  RegisterUser_mutate E now salt u e p d
  = match hashpw E (strip p) salt with
    | Raise x =>
        (Db (accounts d)
            (identities d ++ [registered_identity d now u None])
            (actors d ++ [registered_actor E d u]) (tokens d)
            (next_account_id d) (next_identity_id d + 1) (next_actor_id d + 1),
         Fail (Raised x))
    | Ok hashed =>
        (Db (accounts d ++ [registered_account d now e hashed])
            (identities d
             ++ [registered_identity d now u (Some (next_account_id d))])
            (actors d ++ [registered_actor E d u]) (tokens d)
            (next_account_id d + 1) (next_identity_id d + 1) (next_actor_id d + 1),
         Done (IdentityObject u u (BASE_URL E ++ "/u/" ++ u) "" now))
    end.
Proof.
  unfold accepted. intros Hacc (Wa & Wi & Wact & Wref).
  repeat (apply andb_prop in Hacc as [Hacc ?]).
  unfold RegisterUser_mutate.
  assert (forall A (x y : A),
            match validate_email E e with
            | EmailSyntaxError => x | _ => y end = y) as ->
    by (intros; destruct (validate_email E e); [reflexivity|discriminate|reflexivity]).
  repeat match goal with
         | H : negb ?b = true |- _ => apply negb_true_iff in H; rewrite H
         | H : ?b = true |- _ => rewrite H
         end.
  cbn [negb]. cbn [act_row_id new_actor i_id identities].
  destruct (hashpw E (strip p) salt); cbn [a_id];
    rewrite !map_app, (set_actor_identity_old _ _ _ Wact),
      ?(set_identity_account_old _ _ _ Wi);
    cbn [map]; unfold set_identity_account; cbn [i_id];
    rewrite ?Z.eqb_refl; reflexivity.
Qed.

Lemma allowed_name_from_shape (s : string) : forall seen,
  allowed_name_from seen s = true <->
  exists w, (seen = true \/ w <> "") /\ all name_char w = true
            /\ (s = w \/ s = w ++ String (ascii_of_nat 10) "").
Proof.
  induction s as [|c t IH]; intros seen; cbn [allowed_name_from].
  - split.
    + intros ->. exists "". auto.
    + intros (w & Hw & _ & [E|E]); destruct w; try discriminate.
      now destruct Hw.
  - destruct (name_char c) eqn:Hc.
    + rewrite IH. split.
      * intros (w & _ & Hall & Hs). exists (String c w).
        split; [right; discriminate|]. split.
        { unfold all in *. cbn. now rewrite Hc. }
        destruct Hs as [->| ->]; auto.
      * intros (w & _ & Hall & Hs). destruct w as [|c' w].
        { destruct Hs as [Hs|Hs]; [discriminate|].
          injection Hs as -> _. discriminate. }
        exists w. split; [now left|]. split.
        { unfold all in *. cbn in Hall. now apply andb_prop in Hall. }
        destruct Hs as [Hs|Hs]; injection Hs as _ ->; auto.
    + split.
      * intros H. apply andb_prop in H as [H Ht]. apply andb_prop in H as [-> Hn].
        apply Ascii.eqb_eq in Hn as ->. apply String.eqb_eq in Ht as ->.
        exists "". auto.
      * intros (w & Hw & Hall & Hs). destruct w as [|c' w].
        { destruct Hs as [Hs|Hs]; [discriminate|]. injection Hs as -> ->.
          destruct Hw as [->|Hw]; [reflexivity | now destruct Hw]. }
        unfold all in Hall. cbn in Hall. apply andb_prop in Hall as [Hc' _].
        destruct Hs as [Hs|Hs]; injection Hs as -> _; congruence.
Qed.

(** What a registration returns is decided by its checks and by
    [bcrypt]. *)
Lemma register_outcome (E : deps) now salt u e p d :
  (accepted E u e p d = false
   /\ exists m, RegisterUser_mutate E now salt u e p d = (d, Fail (GraphQLError m)))
  \/ (accepted E u e p d = true
      /\ ((exists x d', hashpw E (strip p) salt = Raise x
            /\ RegisterUser_mutate E now salt u e p d = (d', Fail (Raised x)))
          \/ (exists h d', hashpw E (strip p) salt = Ok h
               /\ RegisterUser_mutate E now salt u e p d
                  = (d', Done (IdentityObject u u (BASE_URL E ++ "/u/" ++ u) "" now))))).
Proof.
  destruct (accepted E u e p d) eqn:Hacc.
  - right. split; [reflexivity|].
    unfold accepted in Hacc. repeat (apply andb_prop in Hacc as [Hacc ?]).
    unfold RegisterUser_mutate.
    assert (forall A (x y : A),
              match validate_email E e with
              | EmailSyntaxError => x | _ => y end = y) as ->
      by (intros; destruct (validate_email E e);
          [reflexivity|discriminate|reflexivity]).
    repeat match goal with
           | H : negb ?b = true |- _ => apply negb_true_iff in H; rewrite H
           | H : ?b = true |- _ => rewrite H
           end.
    cbn [negb]. destruct (hashpw E (strip p) salt); eauto.
  - left. split; [reflexivity|]. now apply register_refused.
Qed.

End UsersFacts.

(** X9: [ALLOWED_NAME_CHARACTERS_RE] matches a user name exactly when it
    is one or more letters or underscores, or that followed by a single
    line feed, which [$] lets through. *)
Theorem user_name_pattern (s : string) :
  Users.ALLOWED_NAME_CHARACTERS_RE_match s = true <-> Users.name_shape s.
Proof.
  unfold Users.ALLOWED_NAME_CHARACTERS_RE_match, Users.name_shape.
  rewrite UsersFacts.allowed_name_from_shape. split.
  - intros (w & [Hw|Hw] & H); [discriminate | eauto].
  - intros (w & Hw & H). eauto.
Qed.

(** X10: [RegisterUser] returns an identity exactly when the email
    address is not refused for its syntax, the password has five
    characters or more once stripped, the user name matches the pattern,
    no account has the email address, no identity has the name as user
    name or display name, and [bcrypt] hashes the stripped password. *)
Theorem register_succeeds_iff (E : Users.deps) (now : Z)
    (salt user_name email_address password : string) (d : Users.db) :
  (exists d' r,
     Users.RegisterUser_mutate E now salt user_name email_address password d
     = (d', Users.Done r))
  <-> (Users.validate_email E email_address <> Users.EmailSyntaxError
       /\ (5 <= Z.of_nat (String.length (Users.strip password)))%Z
       /\ Users.ALLOWED_NAME_CHARACTERS_RE_match user_name = true
       /\ Users.email_used d email_address = false
       /\ Users.user_name_used d user_name = false
       /\ exists hashed,
            Users.hashpw E (Users.strip password) salt = Ok hashed).
Proof.
  assert (Users.accepted E user_name email_address password d = true
          <-> (Users.validate_email E email_address <> Users.EmailSyntaxError
               /\ (5 <= Z.of_nat (String.length (Users.strip password)))%Z
               /\ Users.ALLOWED_NAME_CHARACTERS_RE_match user_name = true
               /\ Users.email_used d email_address = false
               /\ Users.user_name_used d user_name = false)) as Hacc.
  { unfold Users.accepted.
    rewrite !andb_true_iff, !negb_true_iff, Z.ltb_ge.
    destruct (Users.validate_email E email_address); intuition congruence. }
  destruct (UsersFacts.register_outcome E now salt user_name email_address password d)
    as [[Hf (m & ->)] | [Ht [(x & d' & Hh & ->) | (h & d' & Hh & ->)]]].
  - split.
    + intros (d' & r & H). discriminate.
    + intros (H1 & H2 & H3 & H4 & H5 & _).
      assert (Users.accepted E user_name email_address password d = true)
        by (apply Hacc; auto). congruence.
  - split.
    + intros (d'' & r & H). discriminate.
    + intros (_ & _ & _ & _ & _ & h & Hh'). congruence.
  - split; [|eauto]. intros _. apply Hacc in Ht. intuition eauto.
Qed.

(** X11: a registration that is refused with a [GraphQLError] has
    written nothing: the database is as it was. *)
Theorem register_refusal_writes_nothing (E : Users.deps) (now : Z)
    (salt user_name email_address password message : string) (d d' : Users.db) :
  Users.RegisterUser_mutate E now salt user_name email_address password d
  = (d', Users.Fail (Users.GraphQLError message)) ->
  d' = d.
Proof.
  destruct (UsersFacts.register_outcome E now salt user_name email_address password d)
    as [[_ (m & ->)] | [_ [(x & d'' & _ & ->) | (h & d'' & _ & ->)]]];
    intros [= ]; congruence.
Qed.

Lemma register_refusal_writes_nothing_witness :
  Users.RegisterUser_mutate Users.sample_deps 7 "salt"
    "lamia" "lamia@lamia.social" "  abcd  " Users.empty
  = (Users.empty,
     Users.Fail
       (Users.GraphQLError
          "Password is too short! Should be at least five characters in length."))
  /\ Users.empty = Users.empty.
Proof.
  split; [reflexivity|].
  apply (register_refusal_writes_nothing Users.sample_deps 7 "salt"
           "lamia" "lamia@lamia.social" "  abcd  "
           "Password is too short! Should be at least five characters in length.").
  reflexivity.
Defined.

Module LoginFacts.
Import Users UsersFacts.

Local Open Scope Z_scope.

Lemma find_none {A} (f : A -> bool) (l : list A) :
  (forall x, In x l -> f x = false) -> List.find f l = None.
Proof.
  induction l as [|x l IH]; intros H; [reflexivity|].
  cbn. rewrite (H x (or_introl eq_refl)). apply IH. intros y Hy. apply H. now right.
Qed.

Lemma find_app_none {A} (f : A -> bool) (l1 l2 : list A) :
  List.find f l1 = None -> List.find f (l1 ++ l2) = List.find f l2.
Proof.
  induction l1 as [|x l1 IH]; [reflexivity|]. cbn.
  destruct (f x); [discriminate | exact IH].
Qed.

Lemma flat_map_same {A B} (f g : A -> list B) (l : list A) :
  (forall x, In x l -> f x = g x) -> flat_map f l = flat_map g l.
Proof.
  induction l as [|x l IH]; intros H; [reflexivity|].
  cbn. rewrite (H x (or_introl eq_refl)), IH; [reflexivity|].
  intros y Hy. apply H. now right.
Qed.

Lemma joined_in (d : db) (a : account) (i : identity) :
  In (a, i) (joined d) <->
  In a (accounts d) /\ In i (identities d) /\ i_account_id i = Some (a_id a).
Proof.
  unfold joined. rewrite in_flat_map. split.
  - intros (a' & Ha & Hin). apply in_map_iff in Hin as (i' & [= <- <-] & Hi).
    apply filter_In in Hi as [Hi Hsel]. repeat split; auto.
    destruct (i_account_id i') as [x|]; [|discriminate].
    apply Z.eqb_eq in Hsel. now subst.
  - intros (Ha & Hi & Hacc). exists a. split; [exact Ha|].
    apply in_map, filter_In. split; [exact Hi|]. rewrite Hacc. apply Z.eqb_refl.
Qed.

(** After a registration the join has the rows it had, in which the
    identities of old accounts are old, and one row more. *)
Lemma joined_registered (d : db) (acct : account) (ident : identity)
    (nacc nid nact : Z) (acts : list actor) (toks : list token) :
  wf d ->
  a_id acct = next_account_id d ->
  i_account_id ident = Some (next_account_id d) ->
  joined (Db (accounts d ++ [acct]) (identities d ++ [ident]) acts toks nacc nid nact)
  = (joined d ++ [(acct, ident)])%list.
Proof.
  intros (Wa & _ & _ & Wref) Ha Hi. unfold joined. cbn [accounts identities].
  rewrite flat_map_app. cbn [flat_map]. rewrite app_nil_r. f_equal.
  - apply flat_map_same. intros a Hin. f_equal.
    rewrite List.filter_app. cbn [List.filter]. rewrite Hi.
    rewrite Forall_forall in Wa. specialize (Wa a).
    destruct (Z.eqb_spec (next_account_id d) (a_id a)) as [E|_];
      [|apply app_nil_r].
    assert (a_id a < next_account_id d) by (apply Wa; now apply list_elem_of_In). lia.
  - rewrite List.filter_app. cbn [List.filter]. rewrite Hi, Ha, Z.eqb_refl.
    assert (List.filter
              (fun i => match i_account_id i with
                        | Some x => x =? next_account_id d
                        | None => false
                        end) (identities d) = []) as ->; [|reflexivity].
    clear -Wref. induction Wref as [|i l Hi _ IH]; [reflexivity|].
    cbn [List.filter]. rewrite IH.
    destruct (i_account_id i) as [x|] eqn:E; [|reflexivity].
    specialize (Hi x eq_refl). destruct (Z.eqb_spec x (next_account_id d)); [lia|reflexivity].
Qed.

Lemma wf_registered (E : deps) (d : db) now u e hashed :
  wf d ->
  wf (Db (accounts d ++ [registered_account d now e hashed])
         (identities d ++ [registered_identity d now u (Some (next_account_id d))])
         (actors d ++ [registered_actor E d u]) (tokens d)
         (next_account_id d + 1) (next_identity_id d + 1) (next_actor_id d + 1)).
Proof.
  intros (Wa & Wi & Wact & Wref). unfold wf.
  cbn [accounts identities actors next_account_id next_identity_id next_actor_id].
  rewrite !Forall_app, !Forall_singleton.
  repeat split.
  - eapply Forall_impl; [exact Wa|]. cbn. intros; lia.
  - cbn. lia.
  - eapply Forall_impl; [exact Wi|]. cbn. intros; lia.
  - cbn. lia.
  - eapply Forall_impl; [exact Wact|]. cbn. intros; lia.
  - unfold registered_actor, set_actor_identity. cbn. rewrite Z.eqb_refl. cbn. lia.
  - eapply Forall_impl; [exact Wref|]. cbn. intros i H x Hx. specialize (H x Hx). lia.
  - cbn. intros x [= <-]. lia.
Qed.

Lemma wf_half_registered (E : deps) (d : db) now u :
  wf d ->
  wf (Db (accounts d) (identities d ++ [registered_identity d now u None])
         (actors d ++ [registered_actor E d u]) (tokens d)
         (next_account_id d) (next_identity_id d + 1) (next_actor_id d + 1)).
Proof.
  intros (Wa & Wi & Wact & Wref). unfold wf.
  cbn [accounts identities actors next_account_id next_identity_id next_actor_id].
  rewrite !Forall_app, !Forall_singleton.
  repeat split; auto.
  - eapply Forall_impl; [exact Wi|]. cbn. intros; lia.
  - cbn. lia.
  - eapply Forall_impl; [exact Wact|]. cbn. intros; lia.
  - unfold registered_actor, set_actor_identity. cbn. rewrite Z.eqb_refl. cbn. lia.
  - cbn. intros x [= ].
Qed.

Lemma nodup_snoc {A} (l : list A) (x : A) :
  NoDup l -> ~ In x l -> NoDup (l ++ [x]).
Proof.
  intros Hl Hx. apply NoDup_app. repeat split; auto.
  - intros y Hy Hy'. apply list_elem_of_In in Hy.
    apply list_elem_of_singleton in Hy'. now subst.
  - apply NoDup_singleton.
Qed.

Lemma register_keeps (E : deps) now salt u e p d :
  wf d -> unique_names d ->
  wf (fst (RegisterUser_mutate E now salt u e p d))
  /\ unique_names (fst (RegisterUser_mutate E now salt u e p d)).
Proof.
  intros W [Ue Uu].
  destruct (accepted E u e p d) eqn:Hacc.
  - rewrite (register_accepted E now salt u e p d Hacc W).
    unfold accepted in Hacc. repeat (apply andb_prop in Hacc as [Hacc ?]).
    repeat match goal with
           | H : negb ?b = true |- _ => apply negb_true_iff in H
           end.
    assert (forall acc, NoDup (somes (map i_user_name
                            (identities d ++ [registered_identity d now u acc])))) as Uu1.
    { intros acc. rewrite map_app, somes_app. cbn. apply nodup_snoc; [exact Uu|].
      now apply user_name_used_false. }
    destruct (hashpw E (strip p) salt) as [hashed|x]; cbn [fst].
    + split; [now apply wf_registered|]. split; cbn [accounts identities].
      * rewrite map_app, somes_app. cbn. apply nodup_snoc; [exact Ue|].
        now apply email_used_false.
      * apply Uu1.
    + split; [now apply wf_half_registered|]. split; [exact Ue | apply Uu1].
  - destruct (register_refused E now salt u e p d Hacc) as [m ->]. now split.
Qed.

Lemma login_cases (E : deps) u p d :
  (LoginUser_mutate E u p d = (d, Fail (GraphQLError "Invalid username or password.")))
  \/ (exists x, x <> GraphQLError "Invalid username or password."
                /\ (forall m, x <> GraphQLError m)
                /\ LoginUser_mutate E u p d = (d, Fail x))
  \/ (exists a i, find_login d u = Some (a, i)
                  /\ check_password E a p = Done true
                  /\ LoginUser_mutate E u p d
                     = (add_token d (Token (a_id a) (i_id i)),
                        Done (Token (a_id a) (i_id i)))).
Proof.
  unfold LoginUser_mutate.
  destruct (find_login d u) as [[a i]|]; [|now left].
  destruct (check_password E a p) as [[|]|x] eqn:C.
  - right. right. eauto.
  - now left.
  - right. left. exists x. repeat split; auto;
      unfold check_password in C; destruct (a_password a);
      try destruct (checkpw E p _); congruence.
Qed.

Lemma login_keeps (E : deps) u p d :
  wf d -> unique_names d ->
  wf (fst (LoginUser_mutate E u p d))
  /\ unique_names (fst (LoginUser_mutate E u p d)).
Proof.
  intros W U.
  destruct (login_cases E u p d) as [-> | [(x & _ & _ & ->) | (a & i & _ & _ & ->)]];
    now split.
Qed.

End LoginFacts.

Module RegisterFacts.

Lemma register_rows (E : Users.deps) (now : Z)
    (salt user_name email_address password : string) (d d' : Users.db)
    (r : Users.IdentityObjectType) :
  Users.wf d ->
  Users.RegisterUser_mutate E now salt user_name email_address password d
  = (d', Users.Done r) ->
  exists hashed,
    Users.hashpw E (Users.strip password) salt = Ok hashed
    /\ Users.accounts d'
       = (Users.accounts d
          ++ [Users.Account (Users.next_account_id d)
                (Some (Users.next_identity_id d)) (Some email_address)
                (Some hashed) (Some now)])%list
    /\ Users.identities d'
       = (Users.identities d
          ++ [Users.Identity (Users.next_identity_id d)
                (Some (Users.next_actor_id d)) (Some (Users.next_account_id d))
                (Some user_name) (Some user_name) (Some false)
                (Some now) (Some now)])%list
    /\ Users.actors d'
       = (Users.actors d
          ++ [Users.Actor (Users.next_actor_id d)
                (Users.BASE_URL E ++ "/u/" ++ user_name) "Person"
                (Users.BASE_URL E ++ "/u/" ++ user_name)
                (Users.BASE_URL E ++ "/u/" ++ user_name ++ "/followers")
                (Users.BASE_URL E ++ "/u/" ++ user_name ++ "/following")
                (Users.BASE_URL E ++ "/u/" ++ user_name ++ "/inbox")
                (Users.BASE_URL E ++ "/u/" ++ user_name ++ "/outbox")
                user_name user_name (Some (Users.next_identity_id d))])%list
    /\ Users.tokens d' = Users.tokens d
    /\ r = Users.IdentityObject user_name user_name
             (Users.BASE_URL E ++ "/u/" ++ user_name) "" now.
Proof.
  intros W H.
  destruct (Users.accepted E user_name email_address password d) eqn:Hacc.
  - rewrite (UsersFacts.register_accepted E now salt _ _ _ d Hacc W) in H.
    destruct (Users.hashpw E (Users.strip password) salt) as [hashed|x];
      [|discriminate].
    injection H as <- <-. exists hashed. cbn.
    unfold Users.registered_actor, Users.set_actor_identity, Users.new_actor. cbn.
    rewrite Z.eqb_refl. repeat split; reflexivity.
  - destruct (UsersFacts.register_refused E now salt _ _ _ d Hacc) as [m Hm].
    congruence.
Qed.

End RegisterFacts.

(** X12: a registration that returns has added one actor, one identity
    and one account, each under the next id of its sequence and tied to
    the others: the identity to the actor and the account, the actor to
    the identity, the account to the identity as its primary one.  The
    account holds the [bcrypt] hash of the stripped password, and nothing
    else in the database has changed. *)
Theorem register_writes_linked_rows (E : Users.deps) (now : Z)
    (salt user_name email_address password : string) (d d' : Users.db)
    (r : Users.IdentityObjectType) :
  Users.wf d ->
  Users.RegisterUser_mutate E now salt user_name email_address password d
  = (d', Users.Done r) ->
  exists hashed,
    Users.hashpw E (Users.strip password) salt = Ok hashed
    /\ Users.accounts d'
       = (Users.accounts d
          ++ [Users.Account (Users.next_account_id d)
                (Some (Users.next_identity_id d)) (Some email_address)
                (Some hashed) (Some now)])%list
    /\ Users.identities d'
       = (Users.identities d
          ++ [Users.Identity (Users.next_identity_id d)
                (Some (Users.next_actor_id d)) (Some (Users.next_account_id d))
                (Some user_name) (Some user_name) (Some false)
                (Some now) (Some now)])%list
    /\ Users.actors d'
       = (Users.actors d
          ++ [Users.Actor (Users.next_actor_id d)
                (Users.BASE_URL E ++ "/u/" ++ user_name) "Person"
                (Users.BASE_URL E ++ "/u/" ++ user_name)
                (Users.BASE_URL E ++ "/u/" ++ user_name ++ "/followers")
                (Users.BASE_URL E ++ "/u/" ++ user_name ++ "/following")
                (Users.BASE_URL E ++ "/u/" ++ user_name ++ "/inbox")
                (Users.BASE_URL E ++ "/u/" ++ user_name ++ "/outbox")
                user_name user_name (Some (Users.next_identity_id d))])%list
    /\ Users.tokens d' = Users.tokens d
    /\ r = Users.IdentityObject user_name user_name
             (Users.BASE_URL E ++ "/u/" ++ user_name) "" now.
Proof. apply RegisterFacts.register_rows. Qed.

Lemma register_writes_linked_rows_witness :
  exists hashed,
    Users.hashpw Users.sample_deps (Users.strip " secret ") "salt" = Ok hashed
    /\ Users.accounts
         (fst (Users.RegisterUser_mutate Users.sample_deps 7 "salt"
                 "lamia" "lamia@lamia.social" " secret " Users.empty))
       = (Users.accounts Users.empty
          ++ [Users.Account (Users.next_account_id Users.empty)
                (Some (Users.next_identity_id Users.empty))
                (Some "lamia@lamia.social") (Some hashed) (Some 7%Z)])%list
    /\ Users.identities
         (fst (Users.RegisterUser_mutate Users.sample_deps 7 "salt"
                 "lamia" "lamia@lamia.social" " secret " Users.empty))
       = (Users.identities Users.empty
          ++ [Users.Identity (Users.next_identity_id Users.empty)
                (Some (Users.next_actor_id Users.empty))
                (Some (Users.next_account_id Users.empty))
                (Some "lamia") (Some "lamia") (Some false)
                (Some 7%Z) (Some 7%Z)])%list
    /\ Users.actors
         (fst (Users.RegisterUser_mutate Users.sample_deps 7 "salt"
                 "lamia" "lamia@lamia.social" " secret " Users.empty))
       = (Users.actors Users.empty
          ++ [Users.Actor (Users.next_actor_id Users.empty)
                (Users.BASE_URL Users.sample_deps ++ "/u/" ++ "lamia") "Person"
                (Users.BASE_URL Users.sample_deps ++ "/u/" ++ "lamia")
                (Users.BASE_URL Users.sample_deps ++ "/u/" ++ "lamia" ++ "/followers")
                (Users.BASE_URL Users.sample_deps ++ "/u/" ++ "lamia" ++ "/following")
                (Users.BASE_URL Users.sample_deps ++ "/u/" ++ "lamia" ++ "/inbox")
                (Users.BASE_URL Users.sample_deps ++ "/u/" ++ "lamia" ++ "/outbox")
                "lamia" "lamia" (Some (Users.next_identity_id Users.empty))])%list
    /\ Users.tokens
         (fst (Users.RegisterUser_mutate Users.sample_deps 7 "salt"
                 "lamia" "lamia@lamia.social" " secret " Users.empty))
       = Users.tokens Users.empty
    /\ Users.IdentityObject "lamia" "lamia" "https://lamia.social/u/lamia" "" 7
       = Users.IdentityObject "lamia" "lamia"
           (Users.BASE_URL Users.sample_deps ++ "/u/" ++ "lamia") "" 7.
Proof.
  apply (register_writes_linked_rows Users.sample_deps 7 "salt"
           "lamia" "lamia@lamia.social" " secret " Users.empty).
  - repeat split; constructor.
  - reflexivity.
Defined.

(** X13: whatever registrations and logins are served, in any order and
    with any outcome, no two accounts come to share an email address and
    no two identities a user name, and the ids in use stay below the
    sequences. *)
Theorem served_keeps_names_unique (E : Users.deps)
    (rs : list Users.request) (d : Users.db) :
  Users.wf d -> Users.unique_names d ->
  Users.wf (Users.serve_all E rs d)
  /\ Users.unique_names (Users.serve_all E rs d).
Proof.
  unfold Users.serve_all. revert d.
  induction rs as [|r rs IH]; intros d W U; [now split|].
  cbn [foldl]. destruct r as [now salt u e p | u p]; cbn [Users.serve].
  - destruct (LoginFacts.register_keeps E now salt u e p d W U). now apply IH.
  - destruct (LoginFacts.login_keeps E u p d W U). now apply IH.
Qed.

Lemma served_keeps_names_unique_witness :
  Users.wf
    (Users.serve_all Users.sample_deps
       [Users.Register 7 "salt" "lamia" "lamia@lamia.social" "secret";
        Users.Register 8 "salt" "lamia" "other@lamia.social" "secret";
        Users.Login "lamia" "secret"] Users.empty)
  /\ Users.unique_names
       (Users.serve_all Users.sample_deps
          [Users.Register 7 "salt" "lamia" "lamia@lamia.social" "secret";
           Users.Register 8 "salt" "lamia" "other@lamia.social" "secret";
           Users.Login "lamia" "secret"] Users.empty).
Proof.
  apply served_keeps_names_unique.
  - repeat split; constructor.
  - split; constructor.
Defined.

(** X14: once a registration has returned, every further registration
    with its email address or with its user name is refused with a
    [GraphQLError] and writes nothing. *)
Theorem registered_twice_refused (E : Users.deps) (now : Z)
    (salt user_name email_address password : string) (d d' : Users.db)
    (r : Users.IdentityObjectType)
    (now2 : Z) (salt2 user_name2 email_address2 password2 : string) :
  Users.wf d ->
  Users.RegisterUser_mutate E now salt user_name email_address password d
  = (d', Users.Done r) ->
  email_address2 = email_address \/ user_name2 = user_name ->
  exists message,
    Users.RegisterUser_mutate E now2 salt2 user_name2 email_address2 password2 d'
    = (d', Users.Fail (Users.GraphQLError message)).
Proof.
  intros W H Hsame.
  destruct (RegisterFacts.register_rows E now salt _ _ _ d d' r W H)
    as (hashed & _ & Hacc & Hid & _).
  apply UsersFacts.register_refused. unfold Users.accepted.
  destruct Hsame as [-> | ->].
  - assert (Users.email_used d' email_address = true) as ->;
      [|now rewrite !andb_false_r].
    unfold Users.email_used. rewrite Hacc, existsb_app. cbn.
    rewrite String.eqb_refl. now rewrite orb_true_r.
  - assert (Users.user_name_used d' user_name = true) as ->;
      [|now rewrite !andb_false_r].
    unfold Users.user_name_used. rewrite Hid, existsb_app. cbn.
    rewrite String.eqb_refl. now rewrite orb_true_r.
Qed.

Lemma registered_twice_refused_witness :
  exists message,
    Users.RegisterUser_mutate Users.sample_deps 8 "salt"
      "lamia" "other@lamia.social" "secret"
      (fst (Users.RegisterUser_mutate Users.sample_deps 7 "salt"
              "lamia" "lamia@lamia.social" "secret" Users.empty))
    = (fst (Users.RegisterUser_mutate Users.sample_deps 7 "salt"
              "lamia" "lamia@lamia.social" "secret" Users.empty),
       Users.Fail (Users.GraphQLError message)).
Proof.
  apply (registered_twice_refused Users.sample_deps 7 "salt"
           "lamia" "lamia@lamia.social" "secret" Users.empty _
           (Users.IdentityObject "lamia" "lamia" "https://lamia.social/u/lamia" "" 7)).
  - repeat split; constructor.
  - reflexivity.
  - now right.
Defined.

Module LoginAfterRegister.
Import Users UsersFacts LoginFacts.

Local Open Scope Z_scope.

Lemma existsb_none {A} (f : A -> bool) (l : list A) :
  existsb f l = false -> forall x, In x l -> f x = false.
Proof.
  intros H x Hx. destruct (f x) eqn:E; [|reflexivity].
  assert (existsb f l = true) by (apply existsb_exists; eauto). congruence.
Qed.

Lemma no_row_by_email (d : db) (name : string) :
  email_used d name = false ->
  List.find (fun r => opt_eqb (a_email_address (fst r)) name) (joined d) = None.
Proof.
  intros H. apply find_none. intros [a i] Hin. cbn [fst].
  apply joined_in in Hin as (Ha & _ & _).
  exact (existsb_none _ _ H a Ha).
Qed.

Lemma no_row_by_user_name (d : db) (name : string) :
  user_name_used d name = false ->
  List.find (fun r => opt_eqb (i_user_name (snd r)) name) (joined d) = None.
Proof.
  intros H. apply find_none. intros [a i] Hin. cbn [snd].
  apply joined_in in Hin as (_ & Hi & _).
  pose proof (existsb_none _ _ H i Hi) as Hf.
  now apply orb_false_elim in Hf as [Hf _].
Qed.

(** The database and the row that a registration leaves to a login. *)
Lemma registered_row (E : deps) now salt u e p d d' r :
  wf d ->
  RegisterUser_mutate E now salt u e p d = (d', Done r) ->
  exists hashed,
    hashpw E (strip p) salt = Ok hashed
    /\ email_used d e = false /\ user_name_used d u = false
    /\ joined d'
       = (joined d
          ++ [(registered_account d now e hashed,
               registered_identity d now u (Some (next_account_id d)))])%list.
Proof.
  intros W H.
  destruct (accepted E u e p d) eqn:Hacc.
  - rewrite (register_accepted E now salt u e p d Hacc W) in H.
    destruct (hashpw E (strip p) salt) as [hashed|x]; [|discriminate].
    injection H as <- _. exists hashed.
    unfold accepted in Hacc. repeat (apply andb_prop in Hacc as [Hacc ?]).
    repeat match goal with
           | H : negb ?b = true |- _ => apply negb_true_iff in H
           end.
    repeat split; auto. now apply joined_registered.
  - destruct (register_refused E now salt u e p d Hacc) as [m Hm]. congruence.
Qed.

End LoginAfterRegister.

(** X15: after a registration that returned, a login with its email
    address and the stripped password is given a token for the new
    account and its identity, provided [bcrypt] checks a password against
    its own hash; so is a login with its user name, when no account has
    that name for its email address. *)
Theorem register_then_login (E : Users.deps) (now : Z)
    (salt user_name email_address password : string) (d d' : Users.db)
    (r : Users.IdentityObjectType) :
  Users.wf d ->
  Users.bcrypt_round_trip E ->
  Users.RegisterUser_mutate E now salt user_name email_address password d
  = (d', Users.Done r) ->
  Users.LoginUser_mutate E email_address (Users.strip password) d'
  = (Users.add_token d'
       (Users.Token (Users.next_account_id d) (Users.next_identity_id d)),
     Users.Done (Users.Token (Users.next_account_id d) (Users.next_identity_id d)))
  /\ (Users.email_used d user_name = false ->
      email_address <> user_name ->
      Users.LoginUser_mutate E user_name (Users.strip password) d'
      = (Users.add_token d'
           (Users.Token (Users.next_account_id d) (Users.next_identity_id d)),
         Users.Done
           (Users.Token (Users.next_account_id d) (Users.next_identity_id d)))).
Proof.
  intros W RT H.
  destruct (LoginAfterRegister.registered_row E now salt _ _ _ d d' r W H)
    as (hashed & Hh & He & Hu & Hj).
  assert (Users.check_password E (Users.registered_account d now email_address hashed)
            (Users.strip password) = Users.Done true) as Hc.
  { unfold Users.check_password. cbn [Users.a_password Users.registered_account].
    now rewrite (RT _ _ _ Hh). }
  split.
  - unfold Users.LoginUser_mutate, Users.find_login. rewrite Hj.
    rewrite LoginFacts.find_app_none by now apply LoginAfterRegister.no_row_by_email.
    cbn [List.find fst Users.a_email_address Users.registered_account Users.opt_eqb].
    rewrite String.eqb_refl, Hc. reflexivity.
  - intros He' Hne.
    unfold Users.LoginUser_mutate, Users.find_login. rewrite Hj.
    rewrite LoginFacts.find_app_none by now apply LoginAfterRegister.no_row_by_email.
    cbn [List.find fst Users.a_email_address Users.registered_account Users.opt_eqb].
    apply String.eqb_neq in Hne. rewrite Hne.
    rewrite LoginFacts.find_app_none by now apply LoginAfterRegister.no_row_by_user_name.
    cbn [List.find snd Users.i_user_name Users.registered_identity Users.opt_eqb].
    rewrite String.eqb_refl, Hc. reflexivity.
Qed.

Lemma register_then_login_witness :
  Users.LoginUser_mutate Users.sample_deps "lamia@lamia.social"
    (Users.strip " secret ")
    (fst (Users.RegisterUser_mutate Users.sample_deps 7 "salt"
            "lamia" "lamia@lamia.social" " secret " Users.empty))
  = (Users.add_token
       (fst (Users.RegisterUser_mutate Users.sample_deps 7 "salt"
               "lamia" "lamia@lamia.social" " secret " Users.empty))
       (Users.Token (Users.next_account_id Users.empty)
          (Users.next_identity_id Users.empty)),
     Users.Done (Users.Token (Users.next_account_id Users.empty)
                   (Users.next_identity_id Users.empty)))
  /\ (Users.email_used Users.empty "lamia" = false ->
      "lamia@lamia.social" <> "lamia" ->
      Users.LoginUser_mutate Users.sample_deps "lamia" (Users.strip " secret ")
        (fst (Users.RegisterUser_mutate Users.sample_deps 7 "salt"
                "lamia" "lamia@lamia.social" " secret " Users.empty))
      = (Users.add_token
           (fst (Users.RegisterUser_mutate Users.sample_deps 7 "salt"
                   "lamia" "lamia@lamia.social" " secret " Users.empty))
           (Users.Token (Users.next_account_id Users.empty)
              (Users.next_identity_id Users.empty)),
         Users.Done (Users.Token (Users.next_account_id Users.empty)
                       (Users.next_identity_id Users.empty)))).
Proof.
  apply (register_then_login Users.sample_deps 7 "salt"
           "lamia" "lamia@lamia.social" " secret " Users.empty _
           (Users.IdentityObject "lamia" "lamia" "https://lamia.social/u/lamia" "" 7)).
  - repeat split; constructor.
  - intros p salt h [= <-]. cbn. now rewrite String.eqb_refl.
  - reflexivity.
Defined.

(** X16: a login changes no account, identity or actor.  It adds a token
    only for an account whose password check passed, found by its email
    address or by the user name of the identity, the token naming that
    account and an identity of it; otherwise the database is as it was,
    and the [GraphQLError] it raises reads the same for an unknown name
    and for a wrong password. *)
Theorem login_outcomes (E : Users.deps) (user_name password : string)
    (d : Users.db) :
  match Users.LoginUser_mutate E user_name password d with
  | (d', Users.Done t) =>
      d' = Users.add_token d t
      /\ exists a i,
           In a (Users.accounts d) /\ In i (Users.identities d)
           /\ Users.i_account_id i = Some (Users.a_id a)
           /\ t = Users.Token (Users.a_id a) (Users.i_id i)
           /\ Users.check_password E a password = Users.Done true
           /\ (Users.a_email_address a = Some user_name
               \/ Users.i_user_name i = Some user_name)
  | (d', Users.Fail (Users.GraphQLError message)) =>
      d' = d /\ message = "Invalid username or password."
  | (d', Users.Fail _) => d' = d
  end.
Proof.
  destruct (LoginFacts.login_cases E user_name password d)
    as [-> | [(x & _ & Hx & ->) | (a & i & Hf & Hc & ->)]].
  - now split.
  - destruct x as [m| |e]; [now destruct (Hx m) | reflexivity | reflexivity].
  - split; [reflexivity|]. exists a, i.
    assert (In (a, i) (Users.joined d)
            /\ (Users.a_email_address a = Some user_name
                \/ Users.i_user_name i = Some user_name)) as [Hin Hby].
    { unfold Users.find_login in Hf.
      destruct (List.find _ (Users.joined d)) as [r|] eqn:F1.
      - injection Hf as ->. apply List.find_some in F1 as [Hin Hp].
        split; [exact Hin|]. left. now apply UsersFacts.opt_eqb_true in Hp.
      - apply List.find_some in Hf as [Hin Hp].
        split; [exact Hin|]. right. now apply UsersFacts.opt_eqb_true in Hp. }
    apply LoginFacts.joined_in in Hin as (Ha & Hi & Hacc). auto 10.
Qed.

Module StripFacts.
Import Users.

Lemma lstrip_spaces (p : string) : all is_space p = true -> lstrip p = "".
Proof.
  unfold all, chars. induction p as [|c t IH]; [reflexivity|].
  cbn [list_ascii_of_string forallb lstrip]. intros H.
  apply andb_prop in H as [-> Ht]. now apply IH.
Qed.

End StripFacts.

(** X17: a password of white space only is refused whatever its length,
    the five characters being counted after [strip()]; nothing is
    written. *)
Theorem blank_password_refused (E : Users.deps) (now : Z)
    (salt user_name email_address password : string) (d : Users.db) :
  all Users.is_space password = true ->
  exists message,
    Users.RegisterUser_mutate E now salt user_name email_address password d
    = (d, Users.Fail (Users.GraphQLError message)).
Proof.
  intros H. apply UsersFacts.register_refused. unfold Users.accepted, Users.strip.
  rewrite (StripFacts.lstrip_spaces password H). cbn.
  now rewrite andb_false_r.
Qed.

Lemma blank_password_refused_witness :
  exists message,
    Users.RegisterUser_mutate Users.sample_deps 7 "salt"
      "lamia" "lamia@lamia.social" "          " Users.empty
    = (Users.empty, Users.Fail (Users.GraphQLError message)).
Proof. apply blank_password_refused. reflexivity. Defined.
